(** * csv_reader: the paginated CSV endpoint [src/app/api/route.ts]

    A shallow embedding of the [POST] request handler and of the contracts of
    the collaborators it drives (the ioredis client, Axios, the csv-parse
    [Parser] and [NextResponse.json]), followed by the properties of the
    handler.

    Scope of the embedding.
    - The request is the body [req.json()] yields, in the declared interface
      [{url: string, filter?: string, page?: integer, limit?: integer}];
      an absent field is [None].  Numbers are integers ([Z]) or [NaN].
    - Strings are byte strings.  The case folding of the runtime
      ([String.prototype.toLowerCase], which folds Unicode) is a component of
      the environment; the fixtures, whose text is ASCII, use the ASCII fold.
    - A text held by the cache store is represented by the JSON value it
      denotes, so that [JSON.parse (JSON.stringify v)] is [v] and the text of
      a number is that number; texts that are not JSON are not represented.
    - All cache commands of one request happen at the instant [now] of its
      environment (seconds); an entry set with [EX ttl] is readable at
      instants strictly before [now + ttl].
    - The remote server is given by what the two fetches yield: the text of
      the whole body, and the data records csv-parse derives from the
      streamed body.  Of csv-parse the embedding keeps what the handler
      relies on: the checks of [from] and [to] when the parser is built, and
      the record loop that counts data records from 1, hands to [on_record]
      those numbered [from] and above, and stops after the one numbered [to].
    - The constants of [utils/constants] are the fields of [Config]. *)

From Stdlib Require Import ZArith Ascii String.
From stdpp Require Import base option list gmap strings pretty.

Local Open Scope Z_scope.
Set Warnings "-register-all".
Set Default Proof Using "Type".

(** ** JavaScript primitives used by the handler *)

Module Js.

(** The ASCII case fold: what [String.prototype.toLowerCase] does on text
    that is ASCII. *)
Definition lower_ascii (c : ascii) : ascii :=
  let n := nat_of_ascii c in
  if ((65 <=? n)%nat && (n <=? 90)%nat)%bool then ascii_of_nat (n + 32) else c.

Fixpoint toLowerCase_ascii (s : string) : string :=
  match s with
  | EmptyString => EmptyString
  | String c s' => String (lower_ascii c) (toLowerCase_ascii s')
  end.

(** [s.startsWith(p)]. *)
Fixpoint startsWith (s p : string) : bool :=
  match p, s with
  | EmptyString, _ => true
  | String _ _, EmptyString => false
  | String a p', String b s' => if Ascii.eqb a b then startsWith s' p' else false
  end.

(** [s.includes(sub)]. *)
Fixpoint includes (s sub : string) : bool :=
  startsWith s sub ||
  match s with
  | EmptyString => false
  | String _ s' => includes s' sub
  end.

(** [s.endsWith(suf)]. *)
Fixpoint endsWith (s suf : string) : bool :=
  String.eqb s suf ||
  match s with
  | EmptyString => false
  | String _ s' => endsWith s' suf
  end.

(** [s.split(sep)] for a one-character separator. *)
Fixpoint split (sep : ascii) (s : string) : list string :=
  match s with
  | EmptyString => [EmptyString]
  | String c s' =>
      if Ascii.eqb c sep then EmptyString :: split sep s'
      else match split sep s' with
           | [] => [String c EmptyString]
           | w :: ws => String c w :: ws
           end
  end.

(** The line feed character of ["\n"]. *)
Definition LF : ascii := ascii_of_nat 10.

(** Truthiness of an optional string: [undefined] and [""] are falsy. *)
Definition truthy (o : option string) : option string :=
  match o with
  | Some EmptyString => None
  | other => other
  end.

(** A number that is an integer or [NaN]. *)
Inductive Num : Type :=
| Int (z : Z)
| NaN.

(** Interpolation of an optional string in a template literal. *)
Definition interpolate (o : option string) : string :=
  match o with
  | Some s => s
  | None => "undefined"
  end.

End Js.

(** ** JSON values, records and responses *)

Inductive Json : Type :=
| JNull
| JBool (b : bool)
| JNum (z : Z)
| JStr (s : string)
| JArr (items : list Json)
| JObj (fields : list (string * Json)).

(** A parsed CSV record: column name to value, in column order. *)
Definition CsvRecord : Type := list (string * Json).

Definition Object_keys (r : CsvRecord) : list string := map fst r.
Definition Object_values (r : CsvRecord) : list Json := map snd r.

(** [parseInt] of a stored text: only the text of a number starts with a
    digit or a sign. *)
Definition parseInt (text : Json) : Js.Num :=
  match text with
  | JNum z => Js.Int z
  | _ => Js.NaN
  end.

(** [JSON.stringify] turns [NaN] into [null]. *)
Definition json_of_num (n : Js.Num) : Json :=
  match n with
  | Js.Int z => JNum z
  | Js.NaN => JNull
  end.

Definition Headers : Type := list (string * string).

(** What [NextResponse.json(body, init)] was given: the status defaults to
    200, [headers] is [None] when [init] carries none. *)
Record Response : Type := mkResponse {
  body : Json;
  status : Z;
  headers : option Headers
}.

Definition NextResponse_json (b : Json) (st : option Z) (h : option Headers) : Response :=
  {| body := b; status := default 200 st; headers := h |}.

Definition error_body (msg : string) : Json := JObj [("error", JStr msg)].

Definition page_result (records : list CsvRecord) (pageCount : Js.Num) : Json :=
  JObj [("results", JArr (map JObj records)); ("pageCount", json_of_num pageCount)].

(** The request body after [req.json()]. *)
Record Request : Type := mkRequest {
  req_url : option string;
  req_filter : option string;
  req_page : option Z;
  req_limit : option Z
}.

(** The constants of [./utils/constants] and [../utils/constants]. *)
Record Config : Type := mkConfig {
  CACHE_EXPIRY_SECONDS : Z;
  DEFAULT_RESPONSE_HEADERS : Headers;
  MANDATORY_HEADERS : list string;
  STREAM_TIMEOUT_MS : Z;
  DEFAULT_PAGE_SIZES : list Z
}.

(** ** The world of a request: cache store, remote server, effects *)

Record Entry : Type := mkEntry {
  entry_value : Json;
  entry_expires : Z
}.

Inductive Fetched (A : Type) : Type :=
| Ok (a : A)
| Failed (message : string).
Arguments Ok {A} a.
Arguments Failed {A} message.

(** [remote_body url] is [response.data] of a whole-body GET of [url];
    [remote_rows url] is the sequence of data records csv-parse derives from
    the streamed body (header row consumed, columns named, values trimmed),
    in file order; either may fail with a message (network error, timeout,
    malformed input).  [redis_down] makes every cache command reject with
    its message.  [toLowerCase] is [String.prototype.toLowerCase] of the
    runtime. *)
Record Env : Type := mkEnv {
  now : Z;
  remote_body : string → Fetched string;
  remote_rows : string → Fetched (list CsvRecord);
  redis_down : option string;
  toLowerCase : string → string
}.

Inductive Event : Type :=
| EvConnect
| EvGet (key : string)
| EvSet (key : string) (value : Json) (ttl : Z)
| EvFetchAll (url : string)
| EvFetchStream (url : string) (timeout : Z)
| EvDisconnect.

Record State : Type := mkState {
  store : gmap string Entry;
  trace : list Event
}.

Inductive Outcome (A : Type) : Type :=
| Return (a : A)
| Throw (message : string).
Arguments Return {A} a.
Arguments Throw {A} message.

(** Handler computations: state passing with exceptions. *)
Definition Handler (A : Type) : Type := State → Outcome A * State.

Definition ret {A} (a : A) : Handler A := fun st => (Return a, st).

Definition throw {A} (msg : string) : Handler A := fun st => (Throw msg, st).

Definition bind {A B} (m : Handler A) (k : A → Handler B) : Handler B :=
  fun st =>
    match m st with
    | (Return a, st') => k a st'
    | (Throw e, st') => (Throw e, st')
    end.

Notation "'let*' x ':=' m 'in' k" := (bind m (fun x => k))
  (at level 10, x name, m at level 100, k at level 200).
Notation "'do' m 'then' k" := (bind m (fun _ => k))
  (at level 10, m at level 100, k at level 200).

Definition emit (e : Event) : Handler unit :=
  fun st => (Return tt, {| store := store st; trace := trace st ++ [e] |}).

(** [try { body } catch (error) { handler } finally { cleanup }]. *)
Definition try_catch_finally {A} (body_ : Handler A) (handler : string → Handler A)
    (cleanup : Handler unit) : Handler A :=
  fun st =>
    let '(o1, st1) := body_ st in
    let '(o2, st2) := match o1 with
                      | Return a => (Return a, st1)
                      | Throw e => handler e st1
                      end in
    match cleanup st2 with
    | (Return _, st3) => (o2, st3)
    | (Throw e, st3) => (Throw e, st3)
    end.

(** ** The collaborators *)

Section Collaborators.
Context (env : Env).

(** [new Redis({...})]: the client connects on construction. *)
Definition Redis_new : Handler unit := emit EvConnect.

Definition Redis_disconnect : Handler unit := emit EvDisconnect.

(** The live value under [key] at instant [t]. *)
Definition live (m : gmap string Entry) (t : Z) (key : string) : option Json :=
  match m !! key with
  | Some e => if t <? entry_expires e then Some (entry_value e) else None
  | None => None
  end.

(** [redis.get(key)]. *)
Definition Redis_get (key : string) : Handler (option Json) :=
  do emit (EvGet key) then
  match redis_down env with
  | Some msg => throw msg
  | None => fun st => (Return (live (store st) (now env) key), st)
  end.

(** [redis.set(key, value, "EX", ttl)]. *)
Definition Redis_set (key : string) (value : Json) (ttl : Z) : Handler unit :=
  do emit (EvSet key value ttl) then
  match redis_down env with
  | Some msg => throw msg
  | None =>
      if ttl <=? 0 then throw "ERR invalid expire time in 'set' command"
      else fun st =>
        (Return tt,
         {| store := <[key := mkEntry value (now env + ttl)]> (store st);
            trace := trace st |})
  end.

(** [Axios.get(url)], the whole body. *)
Definition Axios_get (url : string) : Handler string :=
  do emit (EvFetchAll url) then
  match remote_body env url with
  | Ok data => ret data
  | Failed msg => throw msg
  end.

(** [Axios.get(url, {responseType: "stream", timeout})] piped into the
    parser: the data records the parser reads off the stream. *)
Definition Axios_get_stream (url : string) (timeout : Z) : Handler (list CsvRecord) :=
  do emit (EvFetchStream url timeout) then
  match remote_rows env url with
  | Ok rows => ret rows
  | Failed msg => throw msg
  end.

End Collaborators.

(** The options of [new Parser({columns: true, from, to, on_record})] that
    shape the output. *)
Record ParserOptions : Type := mkParserOptions {
  opt_from : Z;
  opt_to : Z;
  opt_on_record : CsvRecord → option CsvRecord
}.

(** csv-parse rejects [from < 0] and [to <= 0] when the parser is built. *)
Definition Parser_new (from to : Z) (on_record : CsvRecord → option CsvRecord)
    : Handler ParserOptions :=
  if from <? 0 then
    throw ("Invalid Option: from must be a positive integer, got " +:+ pretty from)
  else if to <=? 0 then
    throw ("Invalid Option: to must be a positive integer greater than 0, got " +:+ pretty to)
  else ret (mkParserOptions from to on_record).

(** The record loop of csv-parse.  [records] is [info.records], the count of
    data records read so far: each record increments it, is handed to
    [on_record] and pushed when [from === 1 || info.records >= from] (a
    [null] from [on_record] drops it), and the parser stops once
    [to !== -1 && info.records >= to]. *)
Fixpoint Parser_run (o : ParserOptions) (records : Z) (rows : list CsvRecord)
    : list CsvRecord :=
  match rows with
  | [] => []
  | r :: rest =>
      let records := records + 1 in
      let pushed :=
        if (opt_from o =? 1) || (opt_from o <=? records)
        then option_list (opt_on_record o r) else [] in
      if negb (opt_to o =? -1) && (opt_to o <=? records) then pushed
      else pushed ++ Parser_run o records rest
  end.

(** ** The handler *)

Section Route.
Context (cfg : Config) (env : Env).

Definition responseKey (url : string) (page limit : Z) (filter : option string) : string :=
  url +:+ "-" +:+ pretty page +:+ "-" +:+ pretty limit +:+ "-" +:+ Js.interpolate filter.

Definition totalKey (url : string) : string := url +:+ "-total".

(** [Object.values(record).findIndex(value => typeof value === "string" &&
     value.toLowerCase().includes(filter.toLowerCase())) > -1]. *)
Definition isFilterValuePresentInRecord (filter : string) (record : CsvRecord) : bool :=
  existsb (fun value =>
             match value with
             | JStr s => Js.includes (toLowerCase env s) (toLowerCase env filter)
             | _ => false
             end)
          (Object_values record).

(** The [on_record] callback of the parser. *)
Definition on_record (filter : option string) (record : CsvRecord) : option CsvRecord :=
  match Js.truthy filter with
  | None => Some record
  | Some f => if isFilterValuePresentInRecord f record then Some record else None
  end.

(** [totalNoOfLines % limit === 0 ? totalNoOfLines / limit
     : Math.floor(totalNoOfLines / limit) + 1]. *)
Definition pageCount (totalNoOfLines : Js.Num) (limit : Z) : Js.Num :=
  match totalNoOfLines with
  | Js.NaN => Js.NaN
  | Js.Int t =>
      if Z.rem t limit =? 0 then Js.Int (t / limit) else Js.Int (t / limit + 1)
  end.

Definition isMandatoryHeadersPresent (first : CsvRecord) : bool :=
  forallb (fun header => existsb (String.eqb header) (Object_keys first))
          (MANDATORY_HEADERS cfg).

Definition bad_request (msg : string) : Response :=
  NextResponse_json (error_body msg) (Some 400) (Some (DEFAULT_RESPONSE_HEADERS cfg)).

(** Lines 96-111: the total number of lines, from the cache or from a
    whole-body fetch. *)
Definition resolve_total (url : string) : Handler Js.Num :=
  let totalKey := totalKey url in
  let* urlCacheTotal := Redis_get env totalKey in
  match urlCacheTotal with
  | Some text => ret (parseInt text)
  | None =>
      let* csvString := Axios_get env url in
      let totalNoOfLines := Z.of_nat (length (Js.split Js.LF csvString)) - 1 in
      do Redis_set env totalKey (JNum totalNoOfLines) (CACHE_EXPIRY_SECONDS cfg) then
      ret (Js.Int totalNoOfLines)
  end.

(** Lines 147-191: the response for the records the parser produced. *)
Definition assemble (responseKey : string) (records : list CsvRecord)
    (totalNoOfLines : Js.Num) (limit : Z) : Handler Response :=
  match records with
  | [] =>
      ret (NextResponse_json (error_body "No records found") (Some 404)
             (Some (DEFAULT_RESPONSE_HEADERS cfg)))
  | first :: _ =>
      if negb (isMandatoryHeadersPresent first) then
        ret (bad_request "Mandatory headers are missing")
      else
        let responseData := page_result records (pageCount totalNoOfLines limit) in
        do Redis_set env responseKey responseData (CACHE_EXPIRY_SECONDS cfg) then
        ret (NextResponse_json responseData None None)
  end.

(** Lines 96-191: the page computed on a cache miss. *)
Definition compute_page (url : string) (filter : option string) (page limit : Z)
    : Handler Response :=
  let* totalNoOfLines := resolve_total url in
  let from := (page - 1) * limit in
  let to := from + limit in
  let* parser := Parser_new from to (on_record filter) in
  let* stream := Axios_get_stream env url (STREAM_TIMEOUT_MS cfg) in
  let records := Parser_run parser 0 stream in
  assemble (responseKey url page limit filter) records totalNoOfLines limit.

(** Lines 88-191: the request once it is validated. *)
Definition serve (url : string) (filter : option string) (page limit : Z)
    : Handler Response :=
  let* cacheResponse := Redis_get env (responseKey url page limit filter) in
  match cacheResponse with
  | Some cached =>
      ret (NextResponse_json cached None (Some (DEFAULT_RESPONSE_HEADERS cfg)))
  | None => compute_page url filter page limit
  end.

(** Lines 25-86: the validation ladder, then [serve]. *)
Definition validate_and_serve (url filter : option string) (page limit : Z)
    : Handler Response :=
  match Js.truthy url with
  | None => ret (bad_request "url is required")
  | Some url =>
      if negb (Js.endsWith url ".csv") then
        ret (bad_request "url should be a link to csv file")
      else if (limit =? 0) || (limit <? 0) then
        ret (bad_request "limit is required and should be greater than 0")
      else if (limit =? 0) ||
              match last (DEFAULT_PAGE_SIZES cfg) with
              | Some largest => largest <? limit
              | None => false
              end then
        ret (bad_request "limit is required and should be greater than 0")
      else if page <? 1 then
        ret (bad_request "page is required and should be greater than 0")
      else serve url filter page limit
  end.

(** Lines 192-201: the [catch] block. *)
Definition internal_error (message : string) : Response :=
  NextResponse_json
    (error_body (default "Internal server error" (Js.truthy (Some message))))
    (Some 500) (Some (DEFAULT_RESPONSE_HEADERS cfg)).

(** [export async function POST(req)]. *)
Definition POST (req : Request) : Handler Response :=
  let url := req_url req in
  let filter := req_filter req in
  let page := default 1 (req_page req) in
  let limit := default 10 (req_limit req) in
  do Redis_new then
  try_catch_finally
    (validate_and_serve url filter page limit)
    (fun error => ret (internal_error error))
    Redis_disconnect.

(** Running the handler on a cache store. *)
Definition run (req : Request) (m : gmap string Entry) : Outcome Response * State :=
  POST req (mkState m []).

End Route.

(** ** A fixture: header [id,name,email] and 25 data rows *)

Definition fixture_row (i : Z) : CsvRecord :=
  [("id", JStr (pretty i)); ("name", JStr ("user" +:+ pretty i));
   ("email", JStr ("user" +:+ pretty i +:+ "@example.com"))].

Definition fixture_rows : list CsvRecord := map fixture_row (map Z.of_nat (seq 1 25)).

Definition fixture_line (i : Z) : string :=
  String Js.LF (pretty i +:+ ",user" +:+ pretty i +:+ ",user" +:+ pretty i +:+ "@example.com").

Definition fixture_body : string :=
  "id,name,email" +:+ fold_right String.append "" (map fixture_line (map Z.of_nat (seq 1 25))).

Definition fixture_url : string := "http://files.test/users.csv".

Definition fixture_cfg : Config :=
  {| CACHE_EXPIRY_SECONDS := 3600;
     DEFAULT_RESPONSE_HEADERS := [("Content-Type", "application/json")];
     MANDATORY_HEADERS := ["id"; "name"];
     STREAM_TIMEOUT_MS := 5000;
     DEFAULT_PAGE_SIZES := [10; 20; 50] |}.

Definition fixture_env (t : Z) : Env :=
  {| now := t;
     remote_body := fun url =>
       if String.eqb url fixture_url then Ok fixture_body else Failed "Request failed with status code 404";
     remote_rows := fun url =>
       if String.eqb url fixture_url then Ok fixture_rows else Failed "Request failed with status code 404";
     redis_down := None;
     toLowerCase := Js.toLowerCase_ascii |}.

Definition fixture_request (page limit : Z) (filter : option string) : Request :=
  {| req_url := Some fixture_url; req_filter := filter;
     req_page := Some page; req_limit := Some limit |}.

(** The response of an outcome that is not an exception. *)
Definition response_of (o : Outcome Response) : Response :=
  match o with
  | Return resp => resp
  | Throw msg => NextResponse_json (error_body msg) (Some 500) None
  end.

(** The first page of the fixture, ten rows a page, asked of an empty cache
    at instant 0. *)
Definition fixture_first : Outcome Response * State :=
  run fixture_cfg (fixture_env 0) (fixture_request 1 10 None) ∅.

(** A cache that holds the total of the fixture until instant 100. *)
Definition fixture_total_cached : gmap string Entry :=
  {[ totalKey fixture_url := mkEntry (JNum 25) 100 ]}.

(** ** Vocabulary of the specification *)

(** [s] ends with [suf]. *)
Definition ends_with (s suf : string) : Prop := ∃ pre, s = pre +:+ suf.


(** The number of line feeds of a text. *)
Fixpoint newlines (s : string) : nat :=
  match s with
  | EmptyString => 0
  | String c s' => (if Ascii.eqb c Js.LF then 1 else 0) + newlines s'
  end.

Definition page_of (req : Request) : Z := default 1 (req_page req).
Definition limit_of (req : Request) : Z := default 10 (req_limit req).

(** The four validation rules, in the order of the specification. *)
Inductive Rule : Type := UrlPresent | UrlSuffix | LimitRange | PageRange.

Definition rule_index (r : Rule) : nat :=
  match r with UrlPresent => 0 | UrlSuffix => 1 | LimitRange => 2 | PageRange => 3 end.

Definition violates (cfg : Config) (req : Request) (r : Rule) : Prop :=
  match r with
  | UrlPresent => req_url req = None ∨ req_url req = Some EmptyString
  | UrlSuffix => ∃ url, req_url req = Some url ∧ ¬ ends_with url ".csv"
  | LimitRange =>
      limit_of req ≤ 0 ∨
      ∃ largest, last (DEFAULT_PAGE_SIZES cfg) = Some largest ∧ largest < limit_of req
  | PageRange => page_of req < 1
  end.

Definition rule_message (r : Rule) : string :=
  match r with
  | UrlPresent => "url is required"
  | UrlSuffix => "url should be a link to csv file"
  | LimitRange => "limit is required and should be greater than 0"
  | PageRange => "page is required and should be greater than 0"
  end.

(** A request that breaks no rule, for the url [url]. *)
Record Valid (cfg : Config) (req : Request) (url : string) : Prop := mkValid {
  valid_url : req_url req = Some url;
  valid_nonempty : url ≠ EmptyString;
  valid_suffix : ends_with url ".csv";
  valid_limit : 0 < limit_of req;
  valid_limit_max :
    ∀ largest, last (DEFAULT_PAGE_SIZES cfg) = Some largest → limit_of req ≤ largest;
  valid_page : 1 ≤ page_of req
}.

(** The page-result cache key of a request. *)
Definition key_of (req : Request) (url : string) : string :=
  responseKey url (page_of req) (limit_of req) (req_filter req).


(** The rows whose 1-based position lies in [[lo, hi]], in order. *)
Definition rows_between {A} (lo hi : Z) (rows : list A) : list A :=
  take (Z.to_nat (hi - Z.max lo 1 + 1)) (drop (Z.to_nat (Z.max lo 1 - 1)) rows).



(** The first record carries every mandatory header. *)
Definition headers_present (cfg : Config) (first : CsvRecord) : Prop :=
  ∀ header, header ∈ MANDATORY_HEADERS cfg → header ∈ Object_keys first.

(** The window the handler asks of the parser, and the records that come
    out of it. *)
Definition from_of (req : Request) : Z := (page_of req - 1) * limit_of req.
Definition to_of (req : Request) : Z := from_of req + limit_of req.

Definition window_of (req : Request) (rows : list CsvRecord) : list CsvRecord :=
  rows_between (from_of req) (to_of req) rows.

Definition records_of (env : Env) (req : Request) (rows : list CsvRecord)
    : list CsvRecord :=
  omap (on_record env (req_filter req)) (window_of req rows).

(** [csvString.split("\n").length - 1]. *)
Definition lines_minus_one (csvString : string) : Z :=
  Z.of_nat (length (Js.split Js.LF csvString)) - 1.

(** What [catch] and [finally] make of the outcome of the [try] block. *)
Definition settle (cfg : Config) (r : Outcome Response * State) : Outcome Response * State :=
  (Return (match r.1 with
           | Return resp => resp
           | Throw e => internal_error cfg e
           end),
   mkState (store r.2) (trace r.2 ++ [EvDisconnect])).


(** The total number of lines can be had: it is live in the cache, or the
    whole body can be fetched and the count stored. *)
Definition total_available (cfg : Config) (env : Env) (m : gmap string Entry)
    (url : string) : Prop :=
  is_Some (live m (now env) (totalKey url)) ∨
  ((∃ csvString, remote_body env url = Ok csvString) ∧ 0 < CACHE_EXPIRY_SECONDS cfg).

Definition is_full_fetch (e : Event) : bool :=
  match e with
  | EvFetchAll _ => true
  | _ => false
  end.


(** Neither a connection event nor a remote fetch. *)
Definition is_cache_command (e : Event) : bool :=
  match e with
  | EvGet _ | EvSet _ _ _ => true
  | _ => false
  end.

(** Only the connection events. *)
Definition is_connection_event (e : Event) : bool :=
  match e with
  | EvConnect | EvDisconnect => true
  | _ => false
  end.


(** ** Further vocabulary: error paths, keys, fetches *)

(** The fixture with the cache unreachable. *)
Definition fixture_env_redis_down : Env :=
  {| now := 0;
     remote_body := remote_body (fixture_env 0);
     remote_rows := remote_rows (fixture_env 0);
     redis_down := Some "Connection is closed.";
     toLowerCase := Js.toLowerCase_ascii |}.

(** The fixture with the whole-body fetch failing. *)
Definition fixture_env_body_fails : Env :=
  {| now := 0;
     remote_body := fun _ => Failed "Network Error";
     remote_rows := remote_rows (fixture_env 0);
     redis_down := None;
     toLowerCase := Js.toLowerCase_ascii |}.

(** The fixture with the streamed fetch failing. *)
Definition fixture_env_stream_fails : Env :=
  {| now := 0;
     remote_body := remote_body (fixture_env 0);
     remote_rows := fun _ => Failed "timeout of 5000ms exceeded";
     redis_down := None;
     toLowerCase := Js.toLowerCase_ascii |}.

(** A cache whose page-result entry for the first page expired at instant 50. *)
Definition fixture_page_expired : gmap string Entry :=
  {[ responseKey fixture_url 1 10 None := mkEntry (page_result [] (Js.Int 0)) 50 ]}.

(** The message the [catch] block puts in the body. *)
Definition caught_message (message : string) : string :=
  match message with
  | EmptyString => "Internal server error"
  | _ => message
  end.

(** The 500 of the [catch] block, spelled out. *)
Definition server_error (cfg : Config) (message : string) : Response :=
  {| body := error_body (caught_message message); status := 500;
     headers := Some (DEFAULT_RESPONSE_HEADERS cfg) |}.



(** Header names are ASCII and compared without regard to case. *)
Definition same_header_name (a b : string) : bool :=
  String.eqb (Js.toLowerCase_ascii a) (Js.toLowerCase_ascii b).

(** The headers of the response [NextResponse.json(body, init)] builds: those
    of [init], and [content-type: application/json], which [Response.json]
    adds when [init] names no content type. *)
Definition sent_headers (resp : Response) : Headers :=
  let given := default [] (headers resp) in
  if existsb (fun h => same_header_name h.1 "content-type") given then given
  else given ++ [("content-type", "application/json")].

(** The response carries the header [h]. *)
Definition carries_header (resp : Response) (h : string * string) : bool :=
  existsb (fun h' => same_header_name h'.1 h.1 && String.eqb h'.2 h.2) (sent_headers resp).

(** The response carries every default response header. *)
Definition carries_defaults (cfg : Config) (resp : Response) : bool :=
  forallb (carries_header resp) (DEFAULT_RESPONSE_HEADERS cfg).

(** Modelled from the spec: [DEFAULT_RESPONSE_HEADERS] of [./utils/constants],
    which is not among the sources; the specification describes the set as
    CORS and content-type headers. *)
Definition cors_headers : Headers :=
  [("Access-Control-Allow-Origin", "*"); ("Content-Type", "application/json")].

(** The fixture with these default headers. *)
Definition cors_cfg : Config :=
  {| CACHE_EXPIRY_SECONDS := CACHE_EXPIRY_SECONDS fixture_cfg;
     DEFAULT_RESPONSE_HEADERS := cors_headers;
     MANDATORY_HEADERS := MANDATORY_HEADERS fixture_cfg;
     STREAM_TIMEOUT_MS := STREAM_TIMEOUT_MS fixture_cfg;
     DEFAULT_PAGE_SIZES := DEFAULT_PAGE_SIZES fixture_cfg |}.

(** The first page of the fixture under [cors_cfg], asked of an empty cache
    at instant 0. *)
Definition cors_first : Outcome Response * State :=
  run cors_cfg (fixture_env 0) (fixture_request 1 10 None) ∅.

(** The url of a request, empty when it is missing. *)
Definition url_of (req : Request) : string := default EmptyString (req_url req).

(** The text has no dash. *)
Fixpoint no_dash (s : string) : bool :=
  match s with
  | EmptyString => true
  | String c s' => negb (Ascii.eqb c "-") && no_dash s'
  end.

(** Remote fetches. *)
Definition is_remote_fetch (e : Event) : bool :=
  match e with
  | EvFetchAll _ | EvFetchStream _ _ => true
  | _ => false
  end.

(** The rows the handler's window selects: the first [limit] rows on page 1,
    and from page 2 on [limit + 1] rows starting with the last row of the
    page before. *)
Definition selected_rows (req : Request) (rows : list CsvRecord) : list CsvRecord :=
  if page_of req =? 1 then take (Z.to_nat (limit_of req)) rows
  else take (Z.to_nat (limit_of req + 1))
         (drop (Z.to_nat ((page_of req - 1) * limit_of req - 1)) rows).

(** ** Facts about the JavaScript primitives *)

Section StringFacts.

Lemma app_cons (c : ascii) (s t : string) : String c s +:+ t = String c (s +:+ t).
Proof. reflexivity. Qed.

Lemma app_empty_l (t : string) : EmptyString +:+ t = t.
Proof. reflexivity. Qed.

Lemma app_empty_r (s : string) : s +:+ EmptyString = s.
Proof. induction s as [|c s IH]; [done|]. by rewrite app_cons, IH. Qed.



Lemma endsWith_spec (s suf : string) :
  Js.endsWith s suf = true ↔ ends_with s suf.
Proof.
  unfold ends_with. induction s as [|c s IH]; cbn [Js.endsWith].
  - rewrite orb_false_r, String.eqb_eq. split.
    + intros <-. exists EmptyString. reflexivity.
    + intros ([|c pre] & H); [exact H | discriminate H].
  - rewrite orb_true_iff, String.eqb_eq, IH. split.
    + intros [<- | (pre & H)]; [exists EmptyString; reflexivity|].
      exists (String c pre). by rewrite app_cons, H.
    + intros ([|c' pre] & H); [left; exact H|].
      right. rewrite app_cons in H. injection H as _ H. by exists pre.
Qed.

(** [split] yields one more piece than there are separators. *)
Lemma split_length (s : string) :
  length (Js.split Js.LF s) = S (newlines s).
Proof.
  induction s as [|c s IH]; [done|]. simpl.
  destruct (Ascii.eqb c Js.LF); simpl; [by rewrite IH|].
  destruct (Js.split Js.LF s) as [|w ws]; [discriminate IH | done].
Qed.

Lemma truthy_Some (o : option string) (s : string) :
  Js.truthy o = Some s ↔ o = Some s ∧ s ≠ EmptyString.
Proof.
  destruct o as [[|c t]|]; simpl; split; try done.
  - by intros [[= <-] H].
  - intros [= <-]. done.
  - by intros [[= <-] _].
  - by intros [[=] _].
Qed.

Lemma truthy_None (o : option string) :
  Js.truthy o = None ↔ o = None ∨ o = Some EmptyString.
Proof.
  destruct o as [[|c t]|]; simpl; split; try done; auto.
  intros [H|H]; discriminate H.
Qed.

(** A decimal numeral never runs into the text ["total"]. *)
Lemma pretty_N_go_head (x : N) (s : string) :
  (0 < x)%N → ∃ d rest, (d < 10)%N ∧ pretty_N_go x s = String (pretty_N_char d) rest.
Proof.
  revert s. induction (N.lt_wf_0 x) as [x _ IH]; intros s Hx.
  rewrite pretty_N_go_step by done.
  destruct (decide (x `div` 10 = 0)%N) as [Hz|Hnz].
  - rewrite Hz, pretty_N_go_0. exists (x `mod` 10)%N, s. split; [|done].
    by apply N.mod_lt.
  - apply IH; [apply N.div_lt; lia | by apply N.neq_0_lt_0].
Qed.

Lemma pretty_Z_not_total (z : Z) (rest : string) :
  pretty z +:+ rest ≠ "total".
Proof.
  unfold pretty, pretty_Z. destruct z as [|p|p]; [done| |done].
  unfold pretty, pretty_positive, pretty, pretty_N.
  destruct (decide (N.pos p = 0)%N); [done|].
  destruct (pretty_N_go_head (N.pos p) "") as (d & r & Hd & ->); [lia|].
  rewrite app_cons. intros [= Hc _]. revert Hc. unfold pretty_N_char.
  by repeat case_match.
Qed.

Example toLowerCase_ascii_mixed :
  Js.toLowerCase_ascii "User20@Example.COM" = "user20@example.com".
Proof. reflexivity. Qed.

Example includes_inner : Js.includes "user20@example.com" "r20@" = true.
Proof. reflexivity. Qed.

Example includes_absent : Js.includes "user20@example.com" "user3" = false.
Proof. reflexivity. Qed.

Example endsWith_csv : Js.endsWith "http://files.test/users.csv" ".csv" = true.
Proof. reflexivity. Qed.

Example endsWith_upper_case : Js.endsWith "http://files.test/users.CSV" ".csv" = false.
Proof. reflexivity. Qed.

Example split_three_lines :
  Js.split Js.LF ("id,name" +:+ String Js.LF ("1,ann" +:+ String Js.LF "2,bob"))
  = ["id,name"; "1,ann"; "2,bob"].
Proof. reflexivity. Qed.

Example split_trailing_line_feed :
  Js.split Js.LF ("id,name" +:+ String Js.LF ("1,ann" +:+ String Js.LF ""))
  = ["id,name"; "1,ann"; ""].
Proof. reflexivity. Qed.

Example split_empty : Js.split Js.LF "" = [""].
Proof. reflexivity. Qed.

End StringFacts.

Lemma responseKey_ne_totalKey (url : string) (page limit : Z) (filter : option string) :
  responseKey url page limit filter ≠ totalKey url.
Proof.
  unfold responseKey, totalKey. intros H.
  apply (inj (String.append url)) in H. rewrite !app_cons, !app_empty_l in H.
  injection H as H. by apply pretty_Z_not_total in H.
Qed.

(** ** Facts about the parser and the pure parts of the handler *)

Section ParserFacts.

Lemma omap_singleton {A B} (f : A → option B) (x : A) : omap f [x] = option_list (f x).
Proof. simpl. by destruct (f x). Qed.

Lemma omap_cons {A B} (f : A → option B) (x : A) (l : list A) :
  omap f (x :: l) = option_list (f x) ++ omap f l.
Proof. simpl. by destruct (f x). Qed.

(** From a count [c] of records already read, the parser hands to
    [on_record] exactly the rows numbered [max from (c+1)] to [to]. *)
Lemma Parser_run_from (o : ParserOptions) (rows : list CsvRecord) (c : Z) :
  0 ≤ c → c < opt_to o →
  Parser_run o c rows =
    omap (opt_on_record o)
      (take (Z.to_nat (opt_to o - Z.max (opt_from o) (c + 1) + 1))
            (drop (Z.to_nat (Z.max (opt_from o) (c + 1) - (c + 1))) rows)).
Proof.
  revert c. induction rows as [|r rest IH]; intros c Hc Hto.
  - by rewrite drop_nil, take_nil.
  - cbn [Parser_run].
    assert ((opt_to o =? -1) = false) as -> by lia. cbn [negb andb].
    assert (((opt_from o =? 1) || (opt_from o <=? c + 1)) = (opt_from o <=? c + 1)) as ->.
    { destruct (Z.eqb_spec (opt_from o) 1); [simpl; lia | done]. }
    destruct (Z.leb_spec (opt_from o) (c + 1)) as [Hfrom|Hfrom].
    + rewrite Z.max_r by done.
      replace (Z.to_nat (c + 1 - (c + 1))) with 0%nat by lia.
      replace (Z.to_nat (opt_to o - (c + 1) + 1))
        with (S (Z.to_nat (opt_to o - (c + 1)))) by lia.
      cbn [drop take]. rewrite omap_cons.
      destruct (Z.leb_spec (opt_to o) (c + 1)) as [Hstop|Hgo].
      * replace (Z.to_nat (opt_to o - (c + 1))) with 0%nat by lia.
        by rewrite take_0, app_nil_r.
      * rewrite IH by lia. rewrite (Z.max_r (opt_from o)) by lia.
        replace (Z.to_nat (c + 1 + 1 - (c + 1 + 1))) with 0%nat by lia.
        by replace (Z.to_nat (opt_to o - (c + 1 + 1) + 1))
          with (Z.to_nat (opt_to o - (c + 1))) by lia.
    + rewrite Z.max_l by lia.
      replace (Z.to_nat (opt_from o - (c + 1)))
        with (S (Z.to_nat (opt_from o - (c + 1 + 1)))) by lia.
      cbn [drop]. destruct (Z.leb_spec (opt_to o) (c + 1)) as [Hstop|Hgo].
      * replace (Z.to_nat (opt_to o - opt_from o + 1)) with 0%nat by lia.
        by rewrite take_0.
      * rewrite IH by lia. by rewrite (Z.max_l (opt_from o)) by lia.
Qed.

(** The parser keeps the rows numbered [from] to [to], both included,
    counting from 1, and maps them through [on_record]. *)
Lemma Parser_run_window (from to : Z) (f : CsvRecord → option CsvRecord)
    (rows : list CsvRecord) :
  0 < to →
  Parser_run (mkParserOptions from to f) 0 rows = omap f (rows_between from to rows).
Proof.
  intros Hto. rewrite Parser_run_from by (simpl; lia). simpl. unfold rows_between.
  by replace (from `max` (0 + 1)) with (from `max` 1) by lia.
Qed.

(** [from: 2] starts with the second record and [to: 2] stops after it. *)
Example Parser_run_from_2_to_3 :
  Parser_run (mkParserOptions 2 3 Some) 0 (map fixture_row [1; 2; 3; 4; 5])
  = map fixture_row [2; 3].
Proof. reflexivity. Qed.

Example Parser_run_from_0_to_2 :
  Parser_run (mkParserOptions 0 2 Some) 0 (map fixture_row [1; 2; 3; 4; 5])
  = map fixture_row [1; 2].
Proof. reflexivity. Qed.

(** A record dropped by [on_record] still counts. *)
Example Parser_run_counts_dropped_records :
  Parser_run (mkParserOptions 0 2 (on_record (fixture_env 0) (Some "user2"))) 0
    (map fixture_row [1; 2; 3; 4; 5])
  = map fixture_row [2].
Proof. reflexivity. Qed.



Lemma isMandatoryHeadersPresent_spec (cfg : Config) (first : CsvRecord) :
  isMandatoryHeadersPresent cfg first = true ↔ headers_present cfg first.
Proof.
  unfold isMandatoryHeadersPresent, headers_present. rewrite forallb_forall. split.
  - intros H header Hin. apply list_elem_of_In in Hin. apply H in Hin.
    apply existsb_exists in Hin as (k & Hk & Heq). apply String.eqb_eq in Heq as ->.
    by apply list_elem_of_In.
  - intros H header Hin. apply existsb_exists. exists header. split.
    + by apply list_elem_of_In, H, list_elem_of_In.
    + by apply String.eqb_eq.
Qed.

(** The two branches of [pageCount] are the ceiling of [t / limit]. *)
Lemma pageCount_ceiling (t limit : Z) :
  0 ≤ t → 0 < limit →
  ∃ k, pageCount (Js.Int t) limit = Js.Int k ∧
       k = (t + limit - 1) / limit ∧ limit * (k - 1) < t ≤ limit * k.
Proof.
  intros Ht Hl. unfold pageCount. rewrite Z.rem_mod_nonneg by lia.
  pose proof (Z.div_mod t limit ltac:(lia)) as Hdm.
  pose proof (Z.mod_pos_bound t limit Hl) as Hb.
  destruct (Z.eqb_spec (t `mod` limit) 0) as [Hz|Hnz].
  - exists (t / limit). split; [done|]. split; [|nia].
    apply Z.div_unique with (r := limit - 1); [lia | nia].
  - exists (t / limit + 1). split; [done|]. split; [|nia].
    apply Z.div_unique with (r := t `mod` limit - 1); [lia | nia].
Qed.

End ParserFacts.

(** ** Equations of the handler, one per path *)

Section HandlerFacts.
Context (cfg : Config) (env : Env).

(** The handler connects, runs the body, turns an exception into a 500
    and disconnects. *)
Lemma run_unfold (req : Request) (m : gmap string Entry) :
  run cfg env req m =
    settle cfg (validate_and_serve cfg env (req_url req) (req_filter req)
              (page_of req) (limit_of req) (mkState m [EvConnect])).
Proof.
  unfold run, POST, bind, Redis_new, try_catch_finally, Redis_disconnect, emit,
    ret, settle, page_of, limit_of. simpl.
  by destruct (validate_and_serve _ _ _ _ _ _ _) as [[resp|e] st].
Qed.

Lemma validate_valid (req : Request) (url : string) :
  Valid cfg req url →
  validate_and_serve cfg env (req_url req) (req_filter req) (page_of req) (limit_of req)
  = serve cfg env url (req_filter req) (page_of req) (limit_of req).
Proof.
  intros [Hu Hne Hs Hl Hm Hp]. unfold validate_and_serve.
  rewrite (proj2 (truthy_Some _ _) (conj Hu Hne)).
  rewrite (proj2 (endsWith_spec _ _) Hs). cbn [negb].
  assert (((limit_of req =? 0) || (limit_of req <? 0)) = false) as -> by lia.
  assert ((limit_of req =? 0) = false) as -> by lia. cbn [orb].
  destruct (last (DEFAULT_PAGE_SIZES cfg)) as [largest|] eqn:Hlast.
  - specialize (Hm largest eq_refl).
    assert ((largest <? limit_of req) = false) as -> by lia.
    by assert ((page_of req <? 1) = false) as -> by lia.
  - by assert ((page_of req <? 1) = false) as -> by lia.
Qed.

Lemma validate_first_violation (req : Request) (r : Rule) (st : State) :
  violates cfg req r →
  (∀ r', (rule_index r' < rule_index r)%nat → ¬ violates cfg req r') →
  validate_and_serve cfg env (req_url req) (req_filter req) (page_of req) (limit_of req) st
  = (Return (bad_request cfg (rule_message r)), st).
Proof.
  intros Hv Hfirst. unfold validate_and_serve.
  destruct r; simpl in Hv.
  - by rewrite (proj2 (truthy_None _) Hv).
  - destruct Hv as (url & Hu & Hs).
    destruct (Js.truthy (req_url req)) as [u|] eqn:Ht.
    + apply truthy_Some in Ht as [Hu' _]. assert (u = url) as -> by congruence.
      destruct (Js.endsWith url ".csv") eqn:He; [|done].
      by apply endsWith_spec in He.
    + destruct (Hfirst UrlPresent); [simpl; lia | by apply truthy_None].
  - destruct (Js.truthy (req_url req)) as [u|] eqn:Ht.
    2:{ destruct (Hfirst UrlPresent); [simpl; lia | by apply truthy_None]. }
    apply truthy_Some in Ht as [Hu _].
    destruct (Js.endsWith u ".csv") eqn:He.
    2:{ destruct (Hfirst UrlSuffix); [simpl; lia|]. exists u. split; [done|].
        intros Hs. apply endsWith_spec in Hs. congruence. }
    cbn [negb]. destruct ((limit_of req =? 0) || (limit_of req <? 0)) eqn:Hl; [done|].
    destruct Hv as [Hv | (largest & -> & Hv)]; [lia|].
    assert ((largest <? limit_of req) = true) as -> by lia.
    by rewrite orb_true_r.
  - destruct (Js.truthy (req_url req)) as [u|] eqn:Ht.
    2:{ destruct (Hfirst UrlPresent); [simpl; lia | by apply truthy_None]. }
    apply truthy_Some in Ht as [Hu _].
    destruct (Js.endsWith u ".csv") eqn:He.
    2:{ destruct (Hfirst UrlSuffix); [simpl; lia|]. exists u. split; [done|].
        intros Hs. apply endsWith_spec in Hs. congruence. }
    cbn [negb].
    assert (¬ violates cfg req LimitRange) as Hlim by (apply Hfirst; simpl; lia).
    simpl in Hlim.
    assert (((limit_of req =? 0) || (limit_of req <? 0)) = false) as -> by lia.
    assert ((limit_of req =? 0) = false) as -> by lia. cbn [orb].
    destruct (last (DEFAULT_PAGE_SIZES cfg)) as [largest|] eqn:Hlast.
    + assert ((largest <? limit_of req) = false) as ->.
      { apply Z.ltb_ge. apply Z.nlt_ge. intros Hlt. apply Hlim. right. by exists largest. }
      by assert ((page_of req <? 1) = true) as -> by lia.
    + by assert ((page_of req <? 1) = true) as -> by lia.
Qed.

(** Some rule is violated exactly when some rule is the first violated. *)
Lemma first_violation_exists (req : Request) :
  (∃ r, violates cfg req r) →
  ∃ r, violates cfg req r ∧ ∀ r', (rule_index r' < rule_index r)%nat → ¬ violates cfg req r'.
Proof.
  intros Hex.
  assert (∀ r, violates cfg req r ∨ ¬ violates cfg req r) as Hdec.
  { intros r. destruct r; simpl.
    - destruct (req_url req) as [[|c s]|];
        [left; by right | right; intros [H|H]; discriminate H | left; by left].
    - destruct (req_url req) as [u|]; [|right; by intros (? & ? & _)].
      destruct (Js.endsWith u ".csv") eqn:He.
      + right. intros (url & [= <-] & Hn). by apply Hn, endsWith_spec.
      + left. exists u. split; [done|]. intros Hs. apply endsWith_spec in Hs. congruence.
    - destruct (last (DEFAULT_PAGE_SIZES cfg)) as [largest|].
      + destruct (decide (limit_of req ≤ 0 ∨ largest < limit_of req)) as [H|H].
        * left. destruct H; [by left | right; by exists largest].
        * right. intros [?|(l & [= <-] & ?)]; lia.
      + destruct (decide (limit_of req ≤ 0)); [left; by left|].
        right. by intros [?|(l & [=] & ?)].
    - destruct (decide (page_of req < 1)); [by left | by right]. }
  destruct (Hdec UrlPresent) as [H0|H0].
  { exists UrlPresent. split; [done|]. intros r'. simpl. lia. }
  destruct (Hdec UrlSuffix) as [H1|H1].
  { exists UrlSuffix. split; [done|]. intros [] ?; simpl in *; done || lia. }
  destruct (Hdec LimitRange) as [H2|H2].
  { exists LimitRange. split; [done|]. intros [] ?; simpl in *; done || lia. }
  destruct (Hdec PageRange) as [H3|H3].
  { exists PageRange. split; [done|]. intros [] ?; simpl in *; done || lia. }
  destruct Hex as [[] ?]; done.
Qed.

End HandlerFacts.

Section ServeFacts.
Context (cfg : Config) (env : Env).

Lemma trace_app_assoc (tr : list Event) (a b : list Event) :
  (tr ++ a) ++ b = tr ++ (a ++ b).
Proof. by rewrite <- app_assoc. Qed.

Lemma Redis_get_up (key : string) (m : gmap string Entry) (tr : list Event) :
  redis_down env = None →
  Redis_get env key (mkState m tr)
  = (Return (live m (now env) key), mkState m (tr ++ [EvGet key])).
Proof. intros Hup. unfold Redis_get, bind, emit. simpl. by rewrite Hup. Qed.

Lemma Redis_get_down (key msg : string) (m : gmap string Entry) (tr : list Event) :
  redis_down env = Some msg →
  Redis_get env key (mkState m tr) = (Throw msg, mkState m (tr ++ [EvGet key])).
Proof. intros Hdown. unfold Redis_get, bind, emit. simpl. by rewrite Hdown. Qed.

Lemma Redis_set_up (key : string) (v : Json) (ttl : Z) (m : gmap string Entry)
    (tr : list Event) :
  redis_down env = None → 0 < ttl →
  Redis_set env key v ttl (mkState m tr)
  = (Return tt, mkState (<[key := mkEntry v (now env + ttl)]> m) (tr ++ [EvSet key v ttl])).
Proof.
  intros Hup Httl. unfold Redis_set, bind, emit. simpl. rewrite Hup.
  by assert ((ttl <=? 0) = false) as -> by lia.
Qed.

(** A set that does not go through leaves the store as it was. *)
Lemma Redis_set_fails (key : string) (v : Json) (ttl : Z) (m : gmap string Entry)
    (tr : list Event) :
  (is_Some (redis_down env) ∨ ttl ≤ 0) →
  ∃ msg, Redis_set env key v ttl (mkState m tr)
         = (Throw msg, mkState m (tr ++ [EvSet key v ttl])).
Proof.
  intros H. unfold Redis_set, bind, emit. simpl.
  destruct (redis_down env) as [msg|]; [by exists msg|].
  destruct H as [[? [=]]|H].
  assert ((ttl <=? 0) = true) as -> by lia. by eexists.
Qed.

Lemma serve_hit (url : string) (filter : option string) (page limit : Z)
    (m : gmap string Entry) (tr : list Event) (cached : Json) :
  redis_down env = None →
  live m (now env) (responseKey url page limit filter) = Some cached →
  serve cfg env url filter page limit (mkState m tr)
  = (Return (NextResponse_json cached None (Some (DEFAULT_RESPONSE_HEADERS cfg))),
     mkState m (tr ++ [EvGet (responseKey url page limit filter)])).
Proof.
  intros Hup Hlive. unfold serve, bind. by rewrite Redis_get_up, Hlive.
Qed.

Lemma serve_miss (url : string) (filter : option string) (page limit : Z)
    (m : gmap string Entry) (tr : list Event) :
  redis_down env = None →
  live m (now env) (responseKey url page limit filter) = None →
  serve cfg env url filter page limit (mkState m tr)
  = compute_page cfg env url filter page limit
      (mkState m (tr ++ [EvGet (responseKey url page limit filter)])).
Proof.
  intros Hup Hlive. unfold serve, bind. by rewrite Redis_get_up, Hlive.
Qed.

Lemma serve_down (url : string) (filter : option string) (page limit : Z)
    (m : gmap string Entry) (tr : list Event) (msg : string) :
  redis_down env = Some msg →
  serve cfg env url filter page limit (mkState m tr)
  = (Throw msg, mkState m (tr ++ [EvGet (responseKey url page limit filter)])).
Proof.
  intros Hdown. unfold serve, bind. by rewrite (Redis_get_down _ msg).
Qed.

Lemma resolve_total_cached (url : string) (m : gmap string Entry) (tr : list Event)
    (text : Json) :
  redis_down env = None →
  live m (now env) (totalKey url) = Some text →
  resolve_total cfg env url (mkState m tr)
  = (Return (parseInt text), mkState m (tr ++ [EvGet (totalKey url)])).
Proof.
  intros Hup Hlive. unfold resolve_total, bind. by rewrite Redis_get_up, Hlive.
Qed.

Lemma resolve_total_fetched (url : string) (m : gmap string Entry) (tr : list Event)
    (csvString : string) :
  redis_down env = None → 0 < CACHE_EXPIRY_SECONDS cfg →
  live m (now env) (totalKey url) = None →
  remote_body env url = Ok csvString →
  resolve_total cfg env url (mkState m tr)
  = (Return (Js.Int (lines_minus_one csvString)),
     mkState
       (<[totalKey url := mkEntry (JNum (lines_minus_one csvString))
                            (now env + CACHE_EXPIRY_SECONDS cfg)]> m)
       (tr ++ [EvGet (totalKey url); EvFetchAll url;
               EvSet (totalKey url) (JNum (lines_minus_one csvString))
                 (CACHE_EXPIRY_SECONDS cfg)])).
Proof.
  intros Hup Httl Hlive Hbody. unfold resolve_total, bind.
  rewrite Redis_get_up, Hlive by done.
  unfold Axios_get, bind, emit, ret. simpl. rewrite Hbody.
  fold (lines_minus_one csvString). rewrite Redis_set_up by done.
  by rewrite !trace_app_assoc.
Qed.

(** Whatever [resolve_total] returns came from one of the two branches. *)
Lemma resolve_total_inv (url : string) (m m' : gmap string Entry) (tr tr' : list Event)
    (total : Js.Num) :
  redis_down env = None →
  resolve_total cfg env url (mkState m tr) = (Return total, mkState m' tr') →
  (∃ text, live m (now env) (totalKey url) = Some text ∧ total = parseInt text ∧
           m' = m ∧ tr' = tr ++ [EvGet (totalKey url)]) ∨
  (∃ csvString,
      live m (now env) (totalKey url) = None ∧ remote_body env url = Ok csvString ∧
      0 < CACHE_EXPIRY_SECONDS cfg ∧ total = Js.Int (lines_minus_one csvString) ∧
      m' = <[totalKey url := mkEntry (JNum (lines_minus_one csvString))
                               (now env + CACHE_EXPIRY_SECONDS cfg)]> m ∧
      tr' = tr ++ [EvGet (totalKey url); EvFetchAll url;
                   EvSet (totalKey url) (JNum (lines_minus_one csvString))
                     (CACHE_EXPIRY_SECONDS cfg)]).
Proof.
  intros Hup Hrun.
  destruct (live m (now env) (totalKey url)) as [text|] eqn:Hlive.
  - rewrite (resolve_total_cached _ _ _ text) in Hrun by done.
    injection Hrun as <- <- <-. left. by exists text.
  - right. revert Hrun. unfold resolve_total, bind.
    rewrite Redis_get_up, Hlive by done.
    unfold Axios_get, bind, emit, ret. simpl.
    destruct (remote_body env url) as [csvString|msg] eqn:Hbody; [|done].
    fold (lines_minus_one csvString).
    destruct (decide (0 < CACHE_EXPIRY_SECONDS cfg)) as [Httl|Httl].
    + rewrite Redis_set_up by done. rewrite !trace_app_assoc. simpl.
      intros [= <- <- <-]. by exists csvString.
    + destruct (Redis_set_fails (totalKey url) (JNum (lines_minus_one csvString))
                  (CACHE_EXPIRY_SECONDS cfg) m
                  ((tr ++ [EvGet (totalKey url)]) ++ [EvFetchAll url]))
        as [msg ->]; [right; lia | done].
Qed.

(** Every exit of [resolve_total] leaves the page-result key untouched and
    adds no connection event. *)
Lemma resolve_total_frame (url : string) (m : gmap string Entry) (tr : list Event) :
  ∃ o m' evs,
    resolve_total cfg env url (mkState m tr) = (o, mkState m' (tr ++ evs)) ∧
    (∀ key, key ≠ totalKey url → m' !! key = m !! key) ∧
    Forall (λ e, is_connection_event e = false) evs.
Proof.
  unfold resolve_total, bind.
  destruct (redis_down env) as [msg|] eqn:Hup.
  { rewrite (Redis_get_down _ msg) by done. eexists _, m, _. split; [done|].
    split; [done|]. by repeat constructor. }
  rewrite Redis_get_up by done.
  destruct (live m (now env) (totalKey url)) as [text|].
  { eexists _, m, _. split; [done|]. split; [done|]. by repeat constructor. }
  unfold Axios_get, bind, emit, ret, throw. simpl.
  destruct (remote_body env url) as [csvString|msg].
  2:{ rewrite trace_app_assoc. eexists _, m, _. split; [done|]. split; [done|].
      by repeat constructor. }
  destruct (decide (0 < CACHE_EXPIRY_SECONDS cfg)) as [Httl|Httl].
  - rewrite Redis_set_up by done. rewrite !trace_app_assoc.
    eexists _, _, _. split; [done|]. split.
    + intros key Hne. by rewrite lookup_insert_ne.
    + by repeat constructor.
  - destruct (Redis_set_fails (totalKey url)
                (JNum (Z.of_nat (length (Js.split Js.LF csvString)) - 1))
                (CACHE_EXPIRY_SECONDS cfg) m
                ((tr ++ [EvGet (totalKey url)]) ++ [EvFetchAll url]))
      as [msg ->]; [right; lia|].
    rewrite !trace_app_assoc. eexists _, m, _. split; [done|]. split; [done|].
    by repeat constructor.
Qed.

End ServeFacts.

Section ComputeFacts.
Context (cfg : Config) (env : Env).

Lemma assemble_empty (key : string) (total : Js.Num) (limit : Z) (st : State) :
  assemble cfg env key [] total limit st
  = (Return (NextResponse_json (error_body "No records found") (Some 404)
               (Some (DEFAULT_RESPONSE_HEADERS cfg))), st).
Proof. reflexivity. Qed.

Lemma assemble_missing (key : string) (first : CsvRecord) (rest : list CsvRecord)
    (total : Js.Num) (limit : Z) (st : State) :
  isMandatoryHeadersPresent cfg first = false →
  assemble cfg env key (first :: rest) total limit st
  = (Return (bad_request cfg "Mandatory headers are missing"), st).
Proof. intros H. unfold assemble. by rewrite H. Qed.

Lemma assemble_success (key : string) (first : CsvRecord) (rest : list CsvRecord)
    (total : Js.Num) (limit : Z) (m : gmap string Entry) (tr : list Event) :
  isMandatoryHeadersPresent cfg first = true →
  redis_down env = None → 0 < CACHE_EXPIRY_SECONDS cfg →
  let responseData := page_result (first :: rest) (pageCount total limit) in
  assemble cfg env key (first :: rest) total limit (mkState m tr)
  = (Return (NextResponse_json responseData None None),
     mkState (<[key := mkEntry responseData (now env + CACHE_EXPIRY_SECONDS cfg)]> m)
             (tr ++ [EvSet key responseData (CACHE_EXPIRY_SECONDS cfg)])).
Proof.
  intros H Hup Httl responseData. unfold assemble, bind. rewrite H. cbn [negb].
  fold responseData. by rewrite Redis_set_up.
Qed.

(** Every exit of [assemble] adds cache commands only. *)
Lemma assemble_frame (key : string) (records : list CsvRecord) (total : Js.Num)
    (limit : Z) (m : gmap string Entry) (tr : list Event) :
  ∃ o m' evs,
    assemble cfg env key records total limit (mkState m tr) = (o, mkState m' (tr ++ evs)) ∧
    Forall (λ e, is_cache_command e = true) evs.
Proof.
  unfold assemble. destruct records as [|first rest].
  { eexists _, m, []. by rewrite app_nil_r. }
  destruct (isMandatoryHeadersPresent cfg first); cbn [negb].
  2:{ eexists _, m, []. by rewrite app_nil_r. }
  unfold bind, Redis_set, emit, ret, throw. simpl.
  destruct (redis_down env); [eexists _, _, _; split; [done | by repeat constructor]|].
  destruct (CACHE_EXPIRY_SECONDS cfg <=? 0);
    eexists _, _, _; (split; [done | by repeat constructor]).
Qed.

Lemma compute_page_parsed (req : Request) (url : string) (st : State)
    (total : Js.Num) (m' : gmap string Entry) (tr' : list Event) (rows : list CsvRecord) :
  Valid cfg req url →
  resolve_total cfg env url st = (Return total, mkState m' tr') →
  remote_rows env url = Ok rows →
  compute_page cfg env url (req_filter req) (page_of req) (limit_of req) st
  = assemble cfg env (key_of req url) (records_of env req rows) total (limit_of req)
      (mkState m' (tr' ++ [EvFetchStream url (STREAM_TIMEOUT_MS cfg)])).
Proof.
  intros [_ _ _ Hl _ Hp] Htotal Hrows. unfold compute_page, bind. rewrite Htotal.
  unfold Parser_new.
  assert (((page_of req - 1) * limit_of req <? 0) = false) as -> by nia.
  assert (((page_of req - 1) * limit_of req + limit_of req <=? 0) = false) as -> by nia.
  unfold ret at 1. unfold Axios_get_stream, bind, emit, ret. simpl. rewrite Hrows.
  rewrite Parser_run_window by nia. done.
Qed.

Lemma compute_page_stream_fails (req : Request) (url : string) (st : State)
    (total : Js.Num) (m' : gmap string Entry) (tr' : list Event) (msg : string) :
  Valid cfg req url →
  resolve_total cfg env url st = (Return total, mkState m' tr') →
  remote_rows env url = Failed msg →
  compute_page cfg env url (req_filter req) (page_of req) (limit_of req) st
  = (Throw msg, mkState m' (tr' ++ [EvFetchStream url (STREAM_TIMEOUT_MS cfg)])).
Proof.
  intros [_ _ _ Hl _ Hp] Htotal Hrows. unfold compute_page, bind. rewrite Htotal.
  unfold Parser_new.
  assert (((page_of req - 1) * limit_of req <? 0) = false) as -> by nia.
  assert (((page_of req - 1) * limit_of req + limit_of req <=? 0) = false) as -> by nia.
  unfold ret at 1. unfold Axios_get_stream, bind, emit, ret. simpl. by rewrite Hrows.
Qed.

Lemma compute_page_total_fails (url : string) (filter : option string) (page limit : Z)
    (st st' : State) (msg : string) :
  resolve_total cfg env url st = (Throw msg, st') →
  compute_page cfg env url filter page limit st = (Throw msg, st').
Proof. intros H. unfold compute_page, bind. by rewrite H. Qed.

End ComputeFacts.

(** ** The paths of a whole request *)

Section RunFacts.
Context (cfg : Config).

Lemma settle_throw (msg : string) (st : State) (resp : Response) (st' : State) :
  settle cfg (Throw msg, st) = (Return resp, st') → status resp = 500.
Proof. unfold settle. simpl. by intros [= <- _]. Qed.

(** A valid request whose page result is live in the cache. *)
Lemma run_hit (env : Env) (req : Request) (url : string) (m : gmap string Entry)
    (cached : Json) :
  Valid cfg req url → redis_down env = None →
  live m (now env) (key_of req url) = Some cached →
  run cfg env req m
  = (Return (NextResponse_json cached None (Some (DEFAULT_RESPONSE_HEADERS cfg))),
     mkState m [EvConnect; EvGet (key_of req url); EvDisconnect]).
Proof.
  intros Hv Hup Hlive. rewrite run_unfold, (validate_valid _ _ _ url) by done.
  by rewrite (serve_hit _ _ _ _ _ _ _ _ cached).
Qed.

(** A 200 computed on a cache miss: everything on the way went through. *)
Lemma fresh_success_inv (env : Env) (req : Request) (url : string)
    (m : gmap string Entry) (resp : Response) (st : State) :
  Valid cfg req url →
  live m (now env) (key_of req url) = None →
  run cfg env req m = (Return resp, st) → status resp = 200 →
  ∃ total m' tr rows first rest,
    redis_down env = None ∧ 0 < CACHE_EXPIRY_SECONDS cfg ∧
    resolve_total cfg env url (mkState m [EvConnect; EvGet (key_of req url)])
      = (Return total, mkState m' tr) ∧
    remote_rows env url = Ok rows ∧
    records_of env req rows = first :: rest ∧ headers_present cfg first ∧
    let responseData := page_result (records_of env req rows) (pageCount total (limit_of req)) in
    resp = NextResponse_json responseData None None ∧
    st = mkState
           (<[key_of req url := mkEntry responseData (now env + CACHE_EXPIRY_SECONDS cfg)]> m')
           (tr ++ [EvFetchStream url (STREAM_TIMEOUT_MS cfg);
                   EvSet (key_of req url) responseData (CACHE_EXPIRY_SECONDS cfg);
                   EvDisconnect]).
Proof.
  intros Hv Hmiss Hrun H200.
  rewrite run_unfold, (validate_valid _ _ _ url) in Hrun by done.
  destruct (redis_down env) as [msg|] eqn:Hup.
  { rewrite (serve_down _ _ _ _ _ _ _ _ msg) in Hrun by done.
    apply settle_throw in Hrun. lia. }
  rewrite serve_miss in Hrun by done. simpl in Hrun.
  destruct (resolve_total cfg env url (mkState m [EvConnect; EvGet (key_of req url)]))
    as [[total|msg] [m' tr]] eqn:Htotal.
  2:{ erewrite compute_page_total_fails in Hrun by exact Htotal.
      apply settle_throw in Hrun. lia. }
  destruct (remote_rows env url) as [rows|msg] eqn:Hrows.
  2:{ erewrite compute_page_stream_fails in Hrun by done.
      apply settle_throw in Hrun. lia. }
  erewrite compute_page_parsed in Hrun by done.
  destruct (records_of env req rows) as [|first rest] eqn:Hrecs.
  { rewrite assemble_empty in Hrun. injection Hrun as <- _. simpl in H200. lia. }
  destruct (isMandatoryHeadersPresent cfg first) eqn:Hhdr.
  2:{ rewrite assemble_missing in Hrun by done. injection Hrun as <- _.
      simpl in H200. lia. }
  destruct (decide (0 < CACHE_EXPIRY_SECONDS cfg)) as [Httl|Httl].
  2:{ revert Hrun. unfold assemble, bind. rewrite Hhdr. cbn [negb].
      edestruct Redis_set_fails as [msg ->]; [right; lia|].
      intros Hrun. apply settle_throw in Hrun. lia. }
  rewrite assemble_success in Hrun by done.
  unfold settle in Hrun. simpl in Hrun. injection Hrun as <- <-.
  exists total, m', tr, rows, first, rest.
  rewrite Hrecs. repeat split; try done.
  - by apply isMandatoryHeadersPresent_spec.
  - by rewrite !trace_app_assoc.
Qed.

(** A 200 is either served from the cache or computed afresh; either way
    the page-result entry then holds the body that was returned. *)
Lemma success_entry (env : Env) (req : Request) (url : string)
    (m : gmap string Entry) (resp : Response) (st : State) :
  Valid cfg req url →
  run cfg env req m = (Return resp, st) → status resp = 200 →
  match live m (now env) (key_of req url) with
  | Some cached => body resp = cached ∧ store st = m
  | None =>
      store st !! key_of req url
      = Some (mkEntry (body resp) (now env + CACHE_EXPIRY_SECONDS cfg))
  end.
Proof.
  intros Hv Hrun H200.
  destruct (live m (now env) (key_of req url)) as [cached|] eqn:Hlive.
  - destruct (redis_down env) as [msg|] eqn:Hup.
    + rewrite run_unfold, (validate_valid _ _ _ url) in Hrun by done.
      rewrite (serve_down _ _ _ _ _ _ _ _ msg) in Hrun by done.
      apply settle_throw in Hrun. lia.
    + rewrite (run_hit _ _ url _ cached) in Hrun by done. by injection Hrun as <- <-.
  - destruct (fresh_success_inv env req url m resp st)
      as (total & m' & tr & rows & first & rest & _ & _ & _ & _ & _ & _ & -> & ->);
      try done.
    simpl. by rewrite lookup_insert_eq.
Qed.


End RunFacts.

(** ** Frames: which events a path can add *)

Section Frames.
Context (cfg : Config) (env : Env).

Lemma compute_page_frame (url : string) (filter : option string) (page limit : Z)
    (m : gmap string Entry) (tr : list Event) :
  ∃ o m' evs,
    compute_page cfg env url filter page limit (mkState m tr) = (o, mkState m' (tr ++ evs)) ∧
    Forall (λ e, is_connection_event e = false) evs.
Proof.
  unfold compute_page, bind.
  destruct (resolve_total_frame cfg env url m tr) as (o & m1 & evs1 & -> & _ & Hevs1).
  destruct o as [total|msg]; [|by eexists _, _, _].
  unfold Parser_new, throw, ret.
  destruct ((page - 1) * limit <? 0); [by eexists _, _, _|].
  destruct ((page - 1) * limit + limit <=? 0); [by eexists _, _, _|].
  unfold Axios_get_stream, bind, emit, throw, ret. simpl.
  destruct (remote_rows env url) as [rows|msg].
  2:{ rewrite trace_app_assoc. eexists _, _, _. split; [done|].
      apply Forall_app. split; [done | by repeat constructor]. }
  match goal with
  | |- context [assemble cfg env ?k ?r ?t ?l (mkState ?a ?b)] =>
      destruct (assemble_frame cfg env k r t l a b) as (o & m2 & evs2 & -> & Hevs2)
  end.
  rewrite !trace_app_assoc. eexists _, _, _. split; [done|].
  apply Forall_app. split; [done|]. apply Forall_app. split; [by repeat constructor|].
  eapply Forall_impl; [exact Hevs2|]. by intros [].
Qed.

Lemma validate_and_serve_frame (url filter : option string) (page limit : Z)
    (m : gmap string Entry) (tr : list Event) :
  ∃ o m' evs,
    validate_and_serve cfg env url filter page limit (mkState m tr)
    = (o, mkState m' (tr ++ evs)) ∧
    Forall (λ e, is_connection_event e = false) evs.
Proof.
  assert (∀ o : Outcome Response, ∃ o' m' evs,
            (o, mkState m tr) = (o', mkState m' (tr ++ evs)) ∧
            Forall (λ e, is_connection_event e = false) evs) as Hstay.
  { intros o. exists o, m, []. by rewrite app_nil_r. }
  unfold validate_and_serve, ret.
  destruct (Js.truthy url) as [u|]; [|apply Hstay].
  destruct (negb (Js.endsWith u ".csv")); [apply Hstay|].
  destruct ((limit =? 0) || (limit <? 0)); [apply Hstay|].
  destruct ((limit =? 0) || _); [apply Hstay|].
  destruct (page <? 1); [apply Hstay|].
  unfold serve, bind.
  destruct (redis_down env) as [msg|] eqn:Hup.
  { rewrite (Redis_get_down _ _ msg) by done.
    eexists _, _, _. split; [done | by repeat constructor]. }
  rewrite Redis_get_up by done.
  destruct (live m (now env) (responseKey u page limit filter)).
  { eexists _, _, _. split; [done | by repeat constructor]. }
  destruct (compute_page_frame u filter page limit m
              (tr ++ [EvGet (responseKey u page limit filter)]))
    as (o & m' & evs & -> & Hevs).
  rewrite trace_app_assoc. eexists _, _, _. split; [done|].
  apply Forall_app. split; [by repeat constructor | done].
Qed.

End Frames.

(** ** A valid request that misses the page-result cache *)

Section MissFacts.
Context (cfg : Config).


Lemma on_record_keeps (env : Env) (filter : option string) (x y : CsvRecord) :
  on_record env filter x = Some y → y = x.
Proof.
  unfold on_record. destruct (Js.truthy filter) as [f|]; [|congruence].
  destruct (isFilterValuePresentInRecord env f x); congruence.
Qed.

Lemma records_sublist (env : Env) (req : Request) (rows : list CsvRecord) :
  records_of env req rows `sublist_of` window_of req rows.
Proof.
  unfold records_of. induction (window_of req rows) as [|x l IH]; [done|].
  rewrite omap_cons. destruct (on_record env (req_filter req) x) as [y|] eqn:Hx; simpl.
  - apply on_record_keeps in Hx as ->. by constructor.
  - by constructor.
Qed.

(** A page beyond the rows of the file, or a file without rows, leaves
    the parser with nothing. *)
Lemma records_of_beyond (env : Env) (req : Request) (rows : list CsvRecord) :
  0 ≤ from_of req →
  rows = [] ∨ Z.of_nat (length rows) < from_of req →
  records_of env req rows = [].
Proof.
  intros Hfrom H. unfold records_of, window_of, rows_between.
  destruct H as [->|H]; [by rewrite drop_nil, take_nil|].
  rewrite drop_ge by lia. by rewrite take_nil.
Qed.

(** With the cache reachable, the page missing, the total to be had and
    the stream parsed, the request ends in [assemble]. *)
Lemma run_parsed (env : Env) (req : Request) (url : string) (m : gmap string Entry)
    (rows : list CsvRecord) :
  Valid cfg req url → redis_down env = None →
  live m (now env) (key_of req url) = None →
  total_available cfg env m url →
  remote_rows env url = Ok rows →
  ∃ total m' tr,
    resolve_total cfg env url (mkState m [EvConnect; EvGet (key_of req url)])
    = (Return total, mkState m' tr) ∧
    run cfg env req m
    = settle cfg (assemble cfg env (key_of req url) (records_of env req rows) total
                    (limit_of req)
                    (mkState m' (tr ++ [EvFetchStream url (STREAM_TIMEOUT_MS cfg)]))).
Proof.
  intros Hv Hup Hmiss Htotal Hrows.
  rewrite run_unfold, (validate_valid _ _ _ url) by done.
  rewrite serve_miss by done. simpl.
  destruct (live m (now env) (totalKey url)) as [text|] eqn:Hlive.
  - pose proof (resolve_total_cached cfg env url m [EvConnect; EvGet (key_of req url)]
                  text Hup Hlive) as Ht.
    eexists _, _, _. split; [exact Ht|]. by erewrite compute_page_parsed by done.
  - destruct Htotal as [[x Hx]|[[csvString Hbody] Httl]]; [congruence|].
    pose proof (resolve_total_fetched cfg env url m [EvConnect; EvGet (key_of req url)]
                  csvString Hup Httl Hlive Hbody) as Ht.
    eexists _, _, _. split; [exact Ht|]. by erewrite compute_page_parsed by done.
Qed.

(** A request that finds the total live in the cache performs no
    whole-body fetch. *)
Lemma no_full_fetch_when_total_live (env : Env) (req : Request) (url : string)
    (m : gmap string Entry) :
  Valid cfg req url → redis_down env = None →
  is_Some (live m (now env) (totalKey url)) →
  Forall (λ e, is_full_fetch e = false) (trace (run cfg env req m).2).
Proof.
  intros Hv Hup [text Hlive].
  destruct (live m (now env) (key_of req url)) as [cached|] eqn:Hpage.
  { rewrite (run_hit _ _ _ url _ cached) by done. simpl. by repeat constructor. }
  rewrite run_unfold, (validate_valid _ _ _ url) by done.
  rewrite serve_miss by done. simpl.
  pose proof (resolve_total_cached cfg env url m [EvConnect; EvGet (key_of req url)]
                text Hup Hlive) as Htotal.
  destruct (remote_rows env url) as [rows|msg] eqn:Hrows.
  2:{ erewrite compute_page_stream_fails by done. simpl. by repeat constructor. }
  erewrite compute_page_parsed by done.
  match goal with
  | |- context [assemble cfg env ?k ?r ?t ?l (mkState ?a ?b)] =>
      destruct (assemble_frame cfg env k r t l a b) as (o & m2 & evs2 & -> & Hevs2)
  end.
  simpl. repeat (apply Forall_cons; split; [done|]).
  apply Forall_app. split; [|by repeat constructor].
  eapply Forall_impl; [exact Hevs2|]. by intros [].
Qed.

End MissFacts.

(** ** The properties of the endpoint *)

Section Properties.
Context (cfg : Config).

(** C7.  A request that violates a validation rule (url missing or empty,
    url not ending in ".csv", limit at most 0 or above the largest page
    size, page below 1) is answered 400 with the message of the first rule
    it violates, in the order url-present, url-suffix, limit, page; the
    cache store is left as it was and the only effects are the opening and
    the closing of the cache connection: no cache command, no fetch. *)
Theorem POST_rejects_invalid_request (env : Env) (req : Request)
    (m : gmap string Entry) (r : Rule) :
  violates cfg req r →
  ∃ r0, (rule_index r0 ≤ rule_index r)%nat ∧ violates cfg req r0 ∧
        (∀ r', (rule_index r' < rule_index r0)%nat → ¬ violates cfg req r') ∧
        run cfg env req m
        = (Return {| body := error_body (rule_message r0); status := 400;
                     headers := Some (DEFAULT_RESPONSE_HEADERS cfg) |},
           mkState m [EvConnect; EvDisconnect]).
Proof.
  intros Hv.
  destruct (first_violation_exists cfg req (ex_intro _ r Hv)) as (r0 & Hv0 & Hfirst).
  exists r0. split; [|split; [done|split; [done|]]].
  - destruct (decide (rule_index r0 ≤ rule_index r)%nat) as [|Hgt]; [done|].
    destruct (Hfirst r); [lia | done].
  - rewrite run_unfold. by rewrite (validate_first_violation cfg env req r0).
Qed.

(** C9.  Whatever the request, the store and the remote server, the handler
    returns a response, and its effects are: the cache connection opened
    first, then events that are neither an opening nor a closing, then the
    connection closed, last. *)
Theorem POST_always_disconnects (env : Env) (req : Request) (m : gmap string Entry) :
  ∃ resp m' evs,
    run cfg env req m = (Return resp, mkState m' (EvConnect :: evs ++ [EvDisconnect])) ∧
    Forall (λ e, is_connection_event e = false) evs.
Proof.
  rewrite run_unfold.
  destruct (validate_and_serve_frame cfg env (req_url req) (req_filter req)
              (page_of req) (limit_of req) m [EvConnect]) as (o & m' & evs & -> & Hevs).
  unfold settle. simpl. by eexists _, m', evs.
Qed.



(** C3.  For a valid request that misses the page-result cache, when the
    total-line-count entry of the url is absent (the cache being reachable
    and the TTL positive) and the whole body can be fetched: the handler
    fetches the whole body, takes as total the number of pieces of the body
    split at line feeds, minus 1 (that is, the number of line feeds),
    and stores it with the configured TTL under the key made of the url
    and "-total" alone; the entry is in the store when the handler returns,
    and any valid request for the same url, whatever its page, limit and
    filter, issued before the entry expires, performs no whole-body
    fetch. *)
Theorem POST_counts_lines_when_total_absent (env : Env) (req : Request) (url : string)
    (m : gmap string Entry) (csvString : string) :
  Valid cfg req url → redis_down env = None → 0 < CACHE_EXPIRY_SECONDS cfg →
  live m (now env) (key_of req url) = None →
  live m (now env) (totalKey url) = None →
  remote_body env url = Ok csvString →
  let total := Z.of_nat (length (Js.split Js.LF csvString)) - 1 in
  let st := (run cfg env req m).2 in
  total = Z.of_nat (newlines csvString) ∧
  (∃ rest,
      trace st = [EvConnect; EvGet (key_of req url); EvGet (totalKey url);
                  EvFetchAll url;
                  EvSet (url +:+ "-total") (JNum total) (CACHE_EXPIRY_SECONDS cfg)]
                 ++ rest) ∧
  store st !! (url +:+ "-total")
  = Some (mkEntry (JNum total) (now env + CACHE_EXPIRY_SECONDS cfg)) ∧
  ∀ (env' : Env) (req' : Request),
    Valid cfg req' url → redis_down env' = None →
    now env' < now env + CACHE_EXPIRY_SECONDS cfg →
    Forall (λ e, is_full_fetch e = false) (trace (run cfg env' req' (store st)).2).
Proof.
  intros Hv Hup Httl Hpage Htotal Hbody total st.
  assert (total = Z.of_nat (newlines csvString)) as Hnl.
  { unfold total. rewrite split_length. lia. }
  pose proof (resolve_total_fetched cfg env url m [EvConnect; EvGet (key_of req url)]
                csvString Hup Httl Htotal Hbody) as Hres.
  fold total in Hres. unfold lines_minus_one in Hres. fold total in Hres.
  assert ((∃ rest,
             trace st = [EvConnect; EvGet (key_of req url); EvGet (totalKey url);
                         EvFetchAll url;
                         EvSet (totalKey url) (JNum total) (CACHE_EXPIRY_SECONDS cfg)]
                        ++ rest) ∧
          store st !! totalKey url
          = Some (mkEntry (JNum total) (now env + CACHE_EXPIRY_SECONDS cfg))) as [Htr Hst].
  { unfold st. rewrite run_unfold, (validate_valid _ _ _ url) by done.
    rewrite serve_miss by done. simpl.
    destruct (remote_rows env url) as [rows|msg] eqn:Hrows.
    2:{ erewrite compute_page_stream_fails by done. simpl.
        split; [by eexists | by rewrite lookup_insert_eq]. }
    erewrite compute_page_parsed by done.
    destruct (records_of env req rows) as [|first rest] eqn:Hrecs.
    { rewrite assemble_empty. simpl. split; [by eexists | by rewrite lookup_insert_eq]. }
    destruct (isMandatoryHeadersPresent cfg first) eqn:Hhdr.
    2:{ rewrite assemble_missing by done. simpl.
        split; [by eexists | by rewrite lookup_insert_eq]. }
    rewrite assemble_success by done. simpl. split; [by eexists|].
    rewrite lookup_insert_ne by apply responseKey_ne_totalKey.
    by rewrite lookup_insert_eq. }
  split; [done|]. split; [done|]. split; [done|].
  intros env' req' Hv' Hup' Hlt. apply (no_full_fetch_when_total_live cfg env' req' url);
    [done..|].
  unfold live. unfold totalKey in Hst. unfold totalKey. rewrite Hst. simpl.
  by assert ((now env' <? now env + CACHE_EXPIRY_SECONDS cfg) = true) as -> by lia.
Qed.

(** C4.  For a valid request that misses the page-result cache while the
    total-line-count T ≥ 1 is live in the cache, a 200 response carries
    [pageCount = ceil (T / L)] for the limit L of the request: pageCount is
    [(T + L - 1) / L], the integer k with [L * (k - 1) < T ≤ L * k]. *)
Theorem POST_pageCount_is_ceiling (env : Env) (req : Request) (url : string)
    (m : gmap string Entry) (T : Z) (resp : Response) (st : State) :
  Valid cfg req url →
  live m (now env) (key_of req url) = None →
  live m (now env) (totalKey url) = Some (JNum T) → 1 ≤ T →
  run cfg env req m = (Return resp, st) → status resp = 200 →
  ∃ results k,
    body resp = JObj [("results", results); ("pageCount", JNum k)] ∧
    k = (T + limit_of req - 1) / limit_of req ∧
    limit_of req * (k - 1) < T ≤ limit_of req * k.
Proof.
  intros Hv Hpage Htotal HT Hrun H200.
  destruct (fresh_success_inv cfg env req url m resp st Hv Hpage Hrun H200)
    as (total & m' & tr & rows & first & rest & Hup & Httl & Hres & _ & _ & _ & -> & _).
  rewrite (resolve_total_cached _ _ _ _ _ (JNum T)) in Hres by done.
  injection Hres as <- _ _. change (parseInt (JNum T)) with (Js.Int T).
  destruct (pageCount_ceiling T (limit_of req)) as (k & Hk & Hceil & Hbounds);
    [lia | by destruct Hv |].
  rewrite Hk. cbn [body NextResponse_json page_result json_of_num]. by eexists _, k.
Qed.


(** C6.  For a valid request that misses the page-result cache, with the
    cache reachable, the total to be had and the stream parsed: if the
    parser produced no record, the response is 404 "No records found", be
    it that the file has no data row or that the page lies beyond its
    rows; otherwise, if some mandatory header is not a key of the first
    record, the response is 400 "Mandatory headers are missing". *)
Theorem POST_no_records_or_missing_headers (env : Env) (req : Request) (url : string)
    (m : gmap string Entry) (rows : list CsvRecord) :
  Valid cfg req url → redis_down env = None →
  live m (now env) (key_of req url) = None →
  total_available cfg env m url →
  remote_rows env url = Ok rows →
  let not_found := {| body := error_body "No records found"; status := 404;
                      headers := Some (DEFAULT_RESPONSE_HEADERS cfg) |} in
  let missing := {| body := error_body "Mandatory headers are missing"; status := 400;
                    headers := Some (DEFAULT_RESPONSE_HEADERS cfg) |} in
  (records_of env req rows = [] → (run cfg env req m).1 = Return not_found) ∧
  (rows = [] ∨ Z.of_nat (length rows) < from_of req →
   (run cfg env req m).1 = Return not_found) ∧
  (∀ first rest, records_of env req rows = first :: rest →
                 ¬ headers_present cfg first →
                 (run cfg env req m).1 = Return missing).
Proof.
  intros Hv Hup Hpage Htotal Hrows not_found missing.
  destruct (run_parsed cfg env req url m rows Hv Hup Hpage Htotal Hrows)
    as (total & m' & tr & _ & ->).
  assert (records_of env req rows = [] →
          (settle cfg (assemble cfg env (key_of req url) (records_of env req rows) total
                         (limit_of req)
                         (mkState m' (tr ++ [EvFetchStream url (STREAM_TIMEOUT_MS cfg)])))).1
          = Return not_found) as Hempty.
  { intros ->. by rewrite assemble_empty. }
  split; [done|]. split.
  - intros Hbeyond. apply Hempty, records_of_beyond; [|done].
    destruct Hv as [_ _ _ Hl _ Hp]. unfold from_of. nia.
  - intros first rest -> Hmissing. rewrite assemble_missing; [done|].
    destruct (isMandatoryHeadersPresent cfg first) eqn:Hhdr; [|done].
    by apply isMandatoryHeadersPresent_spec in Hhdr.
Qed.

End Properties.

(** ** Where the code departs from the specification *)

Section Departures.
Context (cfg : Config).

(** The parser window of a request: [limit] rows on page 1, and from page 2
    on one row more, starting with the last row of the page before. *)
Lemma window_of_length (req : Request) (url : string) (rows : list CsvRecord) :
  Valid cfg req url →
  to_of req ≤ Z.of_nat (length rows) →
  Z.of_nat (length (window_of req rows))
  = if page_of req =? 1 then limit_of req else limit_of req + 1.
Proof.
  intros [_ _ _ Hl _ Hp] Hlen. unfold window_of, rows_between, to_of, from_of in *.
  rewrite length_take, length_drop.
  destruct (Z.eqb_spec (page_of req) 1) as [Heq|Hne]; [rewrite Heq in *; lia|].
  assert (1 ≤ (page_of req - 1) * limit_of req) by nia. lia.
Qed.

Lemma window_of_lookup (req : Request) (url : string) (rows : list CsvRecord) (i : nat) :
  Valid cfg req url →
  (i < length (window_of req rows))%nat →
  window_of req rows !! i = rows !! (i + Z.to_nat (Z.max (from_of req) 1 - 1))%nat.
Proof.
  intros _ Hi. unfold window_of, rows_between in *.
  rewrite length_take in Hi. rewrite lookup_take_lt by lia.
  rewrite lookup_drop. f_equal. lia.
Qed.

(** A freshly computed 200 is built without the default headers. *)
Lemma fresh_success_has_no_headers (env : Env) (req : Request) (url : string)
    (m : gmap string Entry) (resp : Response) (st : State) :
  Valid cfg req url →
  live m (now env) (key_of req url) = None →
  run cfg env req m = (Return resp, st) → status resp = 200 →
  headers resp = None.
Proof.
  intros Hv Hpage Hrun H200.
  by destruct (fresh_success_inv cfg env req url m resp st Hv Hpage Hrun H200)
    as (total & m' & tr & rows & first & rest & _ & _ & _ & _ & _ & _ & -> & _).
Qed.

(** Every response that is not a 200 carries the default headers (and so
    does a 200 served from the cache, see [run_hit]). *)
Lemma other_responses_carry_headers (env : Env) (req : Request)
    (m : gmap string Entry) (resp : Response) (st : State) :
  run cfg env req m = (Return resp, st) →
  headers resp = Some (DEFAULT_RESPONSE_HEADERS cfg) ∨
  (status resp = 200 ∧ headers resp = None).
Proof.
  rewrite run_unfold. unfold settle.
  destruct (validate_and_serve _ _ _ _ _ _ _) as [[r|msg] st0] eqn:Hbody; simpl;
    intros [= <- _]; [|by left].
  revert Hbody. unfold validate_and_serve, ret.
  destruct (Js.truthy (req_url req)) as [u|]; [|intros [= <- _]; by left].
  destruct (negb (Js.endsWith u ".csv")); [intros [= <- _]; by left|].
  destruct ((limit_of req =? 0) || (limit_of req <? 0)); [intros [= <- _]; by left|].
  destruct ((limit_of req =? 0) || _); [intros [= <- _]; by left|].
  destruct (page_of req <? 1); [intros [= <- _]; by left|].
  unfold serve, bind.
  destruct (Redis_get env _ _) as [[[cached|]|msg] st1]; [| |done].
  { intros [= <- _]. by left. }
  unfold compute_page, bind.
  destruct (resolve_total cfg env u st1) as [[total|msg] st2]; [|done].
  destruct (Parser_new _ _ _ st2) as [[parser|msg] st3]; [|done].
  destruct (Axios_get_stream env u (STREAM_TIMEOUT_MS cfg) st3) as [[stream|msg] st4];
    [|done].
  unfold assemble, ret.
  destruct (Parser_run parser 0 stream) as [|first rest]; [intros [= <- _]; by left|].
  destruct (negb (isMandatoryHeadersPresent cfg first)); [intros [= <- _]; by left|].
  unfold bind. destruct (Redis_set env _ _ _ st4) as [[[]|msg] st5]; [|done].
  intros [= <- _]. by right.
Qed.

(** A freshly computed 200 is sent with the content type alone. *)
Lemma fresh_success_sends_content_type_only (env : Env) (req : Request) (url : string)
    (m : gmap string Entry) (resp : Response) (st : State) :
  Valid cfg req url →
  live m (now env) (key_of req url) = None →
  run cfg env req m = (Return resp, st) → status resp = 200 →
  sent_headers resp = [("content-type", "application/json")].
Proof.
  intros Hv Hpage Hrun H200. unfold sent_headers.
  by rewrite (fresh_success_has_no_headers env req url m resp st).
Qed.

Lemma same_header_name_refl (a : string) : same_header_name a a = true.
Proof. unfold same_header_name. apply String.eqb_refl. Qed.

(** A response built with the default headers carries each of them. *)
Lemma given_defaults_are_carried (resp : Response) :
  headers resp = Some (DEFAULT_RESPONSE_HEADERS cfg) → carries_defaults cfg resp = true.
Proof.
  intros Hh. unfold carries_defaults. apply forallb_forall. intros h Hin.
  unfold carries_header. apply existsb_exists. exists h. split.
  - unfold sent_headers. rewrite Hh. simpl.
    destruct (existsb _ _); [done | apply in_or_app; by left].
  - by rewrite same_header_name_refl, String.eqb_refl.
Qed.

End Departures.

(** ** The fixture: 25 data rows, ten rows a page *)

Section Fixture.

Lemma fixture_valid (page limit : Z) (filter : option string) :
  1 ≤ page → 0 < limit ≤ 50 →
  Valid fixture_cfg (fixture_request page limit filter) fixture_url.
Proof.
  intros Hp Hl. split; unfold limit_of, page_of; simpl.
  - reflexivity.
  - discriminate.
  - by exists "http://files.test/users".
  - lia.
  - intros largest [= <-]. lia.
  - lia.
Defined.

(** C1.  On the fixture, with limit 10, page 3 holds rows 20 to 25, six
    records, where the specification has rows 21 to 25, five records; and
    page 2 holds rows 10 to 20, eleven records for a limit of ten: the
    window given to the parser starts one row early from page 2 on. *)
Theorem fixture_page_three_starts_one_row_early :
  (run fixture_cfg (fixture_env 0) (fixture_request 3 10 None) ∅).1
  = Return (NextResponse_json
              (page_result (map fixture_row [20; 21; 22; 23; 24; 25]) (Js.Int 3))
              None None) ∧
  (run fixture_cfg (fixture_env 0) (fixture_request 2 10 None) ∅).1
  = Return (NextResponse_json
              (page_result
                 (map fixture_row [10; 11; 12; 13; 14; 15; 16; 17; 18; 19; 20])
                 (Js.Int 3))
              None None).
Proof. split; by vm_compute. Qed.

(** Were the end of the parser range exclusive, as the specification of the
    windowed parser has it, page 3 would hold the same six rows. *)
Lemma fixture_page_three_half_open :
  rows_between 20 (30 - 1) fixture_rows = map fixture_row [20; 21; 22; 23; 24; 25].
Proof. by vm_compute. Qed.


(** C8.  With default headers that hold a CORS header besides the content
    type, the 200 computed on a cache miss is sent with
    [content-type: application/json] alone, the header [NextResponse.json]
    adds by itself: it does not carry the CORS header, hence not the
    default set; the same request served from the cache next carries the
    whole set. *)
Theorem fresh_response_lacks_cors_default_header :
  status (response_of cors_first.1) = 200 ∧
  sent_headers (response_of cors_first.1) = [("content-type", "application/json")] ∧
  carries_header (response_of cors_first.1) ("Access-Control-Allow-Origin", "*") = false ∧
  carries_defaults cors_cfg (response_of cors_first.1) = false ∧
  carries_defaults cors_cfg
    (response_of (run cors_cfg (fixture_env 1) (fixture_request 1 10 None)
                    (store cors_first.2)).1)
  = true.
Proof. repeat split; by vm_compute. Qed.

(** Were the content type the only default header, the 200 computed on a
    cache miss would carry the default set all the same. *)
Example fixture_fresh_response_carries_content_type :
  headers (response_of fixture_first.1) = None ∧
  carries_defaults fixture_cfg (response_of fixture_first.1) = true.
Proof. split; by vm_compute. Qed.

End Fixture.

(** ** The theorems at work on the fixture *)

Section OnTheFixture.

Lemma POST_rejects_invalid_request_witness :
  ∃ r0, (rule_index r0 ≤ rule_index PageRange)%nat ∧
        violates fixture_cfg (fixture_request 0 10 None) r0 ∧
        (∀ r', (rule_index r' < rule_index r0)%nat →
               ¬ violates fixture_cfg (fixture_request 0 10 None) r') ∧
        run fixture_cfg (fixture_env 0) (fixture_request 0 10 None) ∅
        = (Return {| body := error_body (rule_message r0); status := 400;
                     headers := Some (DEFAULT_RESPONSE_HEADERS fixture_cfg) |},
           mkState ∅ [EvConnect; EvDisconnect]).
Proof.
  apply (POST_rejects_invalid_request fixture_cfg (fixture_env 0)
           (fixture_request 0 10 None) ∅ PageRange).
  simpl. unfold page_of. simpl. lia.
Defined.



Lemma POST_counts_lines_when_total_absent_witness :
  store fixture_first.2 !! (fixture_url +:+ "-total")
  = Some (mkEntry (JNum (Z.of_nat (length (Js.split Js.LF fixture_body)) - 1))
            (0 + CACHE_EXPIRY_SECONDS fixture_cfg)).
Proof.
  refine (proj1 (proj2 (proj2
    (POST_counts_lines_when_total_absent fixture_cfg (fixture_env 0)
       (fixture_request 1 10 None) fixture_url ∅ fixture_body _ _ _ _ _ _)))).
  - apply fixture_valid; lia.
  - reflexivity.
  - simpl. lia.
  - vm_compute. reflexivity.
  - vm_compute. reflexivity.
  - vm_compute. reflexivity.
Defined.

Lemma POST_pageCount_is_ceiling_witness :
  ∃ results k,
    body (response_of
            (run fixture_cfg (fixture_env 0) (fixture_request 1 10 None)
               fixture_total_cached).1)
    = JObj [("results", results); ("pageCount", JNum k)] ∧
    k = (25 + limit_of (fixture_request 1 10 None) - 1) / limit_of (fixture_request 1 10 None) ∧
    limit_of (fixture_request 1 10 None) * (k - 1) < 25
    ≤ limit_of (fixture_request 1 10 None) * k.
Proof.
  apply (POST_pageCount_is_ceiling fixture_cfg (fixture_env 0) (fixture_request 1 10 None)
           fixture_url fixture_total_cached 25 _
           (run fixture_cfg (fixture_env 0) (fixture_request 1 10 None)
              fixture_total_cached).2).
  - apply fixture_valid; lia.
  - vm_compute. reflexivity.
  - vm_compute. reflexivity.
  - lia.
  - vm_compute. reflexivity.
  - vm_compute. reflexivity.
Defined.


Lemma POST_no_records_or_missing_headers_witness :
  Z.of_nat (length fixture_rows) < from_of (fixture_request 4 10 None) ∧
  (run fixture_cfg (fixture_env 0) (fixture_request 4 10 None) ∅).1
  = Return {| body := error_body "No records found"; status := 404;
              headers := Some (DEFAULT_RESPONSE_HEADERS fixture_cfg) |}.
Proof.
  assert (Z.of_nat (length fixture_rows) < from_of (fixture_request 4 10 None)) as Hbeyond.
  { vm_compute. reflexivity. }
  split; [exact Hbeyond|].
  refine (proj1 (proj2
    (POST_no_records_or_missing_headers fixture_cfg (fixture_env 0)
       (fixture_request 4 10 None) fixture_url ∅ fixture_rows _ _ _ _ _)) _).
  - apply fixture_valid; lia.
  - reflexivity.
  - vm_compute. reflexivity.
  - right. split; [by exists fixture_body | simpl; lia].
  - vm_compute. reflexivity.
  - right. exact Hbeyond.
Defined.

End OnTheFixture.

(** ** Further properties of the handler *)

Section KeyFacts.

Lemma pretty_N_go_no_dash (x : N) (s : string) :
  no_dash s = true → no_dash (pretty_N_go x s) = true.
Proof.
  revert s. induction (N.lt_wf_0 x) as [x _ IH]; intros s Hs.
  destruct (decide (x = 0)%N) as [->|Hx]; [by rewrite pretty_N_go_0|].
  rewrite pretty_N_go_step by lia. apply IH; [apply N.div_lt; lia|].
  simpl. rewrite Hs, andb_true_r. unfold pretty_N_char. by repeat case_match.
Qed.

Lemma pretty_Z_no_dash (z : Z) : 0 ≤ z → no_dash (pretty z) = true.
Proof.
  intros Hz. unfold pretty, pretty_Z. destruct z as [|p|p]; [done| |lia].
  unfold pretty, pretty_positive, pretty, pretty_N.
  destruct (decide (N.pos p = 0)%N); [done|]. by apply pretty_N_go_no_dash.
Qed.

(** Two texts without dash, each followed by a dash, are told apart. *)
Lemma split_at_dash (a a' b b' : string) :
  no_dash a = true → no_dash a' = true →
  a +:+ String "-" b = a' +:+ String "-" b' → a = a' ∧ b = b'.
Proof.
  revert a'. induction a as [|c a IH]; intros [|c' a'] Ha Ha' Heq.
  - rewrite !app_empty_l in Heq. by injection Heq as ->.
  - rewrite app_empty_l, app_cons in Heq. injection Heq as <- _.
    simpl in Ha'. discriminate Ha'.
  - rewrite app_empty_l, app_cons in Heq. injection Heq as -> _.
    simpl in Ha. discriminate Ha.
  - rewrite !app_cons in Heq. injection Heq as -> Heq. simpl in Ha, Ha'.
    apply andb_true_iff in Ha as [_ Ha]. apply andb_true_iff in Ha' as [_ Ha'].
    destruct (IH a' Ha Ha' Heq) as [-> ->]. done.
Qed.

(** X1.  For one url, the page-result key tells apart the page, the limit
    and the interpolated filter of requests whose page and limit are not
    negative: two such keys are equal only if the pages are equal, the limits
    are equal and the filters interpolate to the same text. *)
Theorem responseKey_separates_page_limit_filter (url : string) (page limit page' limit' : Z)
    (filter filter' : option string) :
  0 ≤ page → 0 ≤ limit → 0 ≤ page' → 0 ≤ limit' →
  responseKey url page limit filter = responseKey url page' limit' filter' →
  page = page' ∧ limit = limit' ∧ Js.interpolate filter = Js.interpolate filter'.
Proof.
  intros Hp Hl Hp' Hl' Heq. unfold responseKey in Heq.
  apply (inj (String.append url)) in Heq. rewrite !app_cons, !app_empty_l in Heq.
  injection Heq as Heq.
  apply split_at_dash in Heq as [Hpage Heq]; [|by apply pretty_Z_no_dash..].
  apply split_at_dash in Heq as [Hlimit Heq]; [|by apply pretty_Z_no_dash..].
  split; [by apply (inj pretty)|]. split; [by apply (inj pretty) | done].
Qed.

End KeyFacts.

Section ErrorPaths.
Context (cfg : Config).

Lemma internal_error_spelled (msg : string) : internal_error cfg msg = server_error cfg msg.
Proof. by destruct msg. Qed.

Lemma caught_message_nonempty (msg : string) : caught_message msg ≠ EmptyString.
Proof. by destruct msg. Qed.

(** X3.  When the cache is unreachable, a valid request is answered 500 with
    the message of the rejected lookup (or "Internal server error" when that
    message is empty) and the default headers; the handler has only tried
    the lookup of the page-result key: no fetch, and the store is as it
    was. *)
Theorem POST_cache_unreachable (env : Env) (req : Request) (url msg : string)
    (m : gmap string Entry) :
  Valid cfg req url → redis_down env = Some msg →
  run cfg env req m
  = (Return {| body := error_body (caught_message msg); status := 500;
               headers := Some (DEFAULT_RESPONSE_HEADERS cfg) |},
     mkState m [EvConnect; EvGet (key_of req url); EvDisconnect]).
Proof.
  intros Hv Hdown. rewrite run_unfold, (validate_valid _ _ _ url) by done.
  rewrite (serve_down _ _ _ _ _ _ _ _ msg) by done. unfold settle. simpl.
  by rewrite internal_error_spelled.
Qed.

(** X4.  When a valid request misses both cache entries and the whole-body
    fetch fails, the answer is 500 with the message of the failure; nothing
    is written to the store and the streamed fetch is not attempted. *)
Theorem POST_body_fetch_fails (env : Env) (req : Request) (url msg : string)
    (m : gmap string Entry) :
  Valid cfg req url → redis_down env = None →
  live m (now env) (key_of req url) = None →
  live m (now env) (totalKey url) = None →
  remote_body env url = Failed msg →
  run cfg env req m
  = (Return {| body := error_body (caught_message msg); status := 500;
               headers := Some (DEFAULT_RESPONSE_HEADERS cfg) |},
     mkState m [EvConnect; EvGet (key_of req url); EvGet (totalKey url);
                EvFetchAll url; EvDisconnect]).
Proof.
  intros Hv Hup Hpage Htotal Hbody. rewrite run_unfold, (validate_valid _ _ _ url) by done.
  rewrite serve_miss by done.
  erewrite compute_page_total_fails.
  2:{ unfold resolve_total, bind. rewrite Redis_get_up, Htotal by done.
      unfold Axios_get, bind, emit, throw. simpl. by rewrite Hbody. }
  unfold settle. simpl. by rewrite internal_error_spelled.
Qed.

(** X5.  When a valid request misses both cache entries, the whole body is
    fetched and the streamed fetch then fails, the answer is 500 with the
    message of the failure, yet the total counted from the body stays in the
    store with the configured TTL: the failed request has cached the total
    and nothing else. *)
Theorem POST_stream_fetch_fails (env : Env) (req : Request) (url csvString msg : string)
    (m : gmap string Entry) :
  Valid cfg req url → redis_down env = None → 0 < CACHE_EXPIRY_SECONDS cfg →
  live m (now env) (key_of req url) = None →
  live m (now env) (totalKey url) = None →
  remote_body env url = Ok csvString →
  remote_rows env url = Failed msg →
  let total := JNum (Z.of_nat (length (Js.split Js.LF csvString)) - 1) in
  run cfg env req m
  = (Return {| body := error_body (caught_message msg); status := 500;
               headers := Some (DEFAULT_RESPONSE_HEADERS cfg) |},
     mkState (<[totalKey url := mkEntry total (now env + CACHE_EXPIRY_SECONDS cfg)]> m)
       [EvConnect; EvGet (key_of req url); EvGet (totalKey url); EvFetchAll url;
        EvSet (totalKey url) total (CACHE_EXPIRY_SECONDS cfg);
        EvFetchStream url (STREAM_TIMEOUT_MS cfg); EvDisconnect]).
Proof.
  intros Hv Hup Httl Hpage Htotal Hbody Hrows total.
  rewrite run_unfold, (validate_valid _ _ _ url) by done.
  rewrite serve_miss by done.
  erewrite compute_page_stream_fails; [|done| |done].
  2:{ by apply resolve_total_fetched. }
  unfold settle. simpl. by rewrite internal_error_spelled.
Qed.

(** X7.  A page-result entry that has expired is not served: with the cache
    reachable, the total to be had and the stream parsed, a valid request
    whose entry expired at or before the instant of the request looks up the
    total and fetches the stream again; and when the answer is 200 the entry
    is overwritten with the body returned, to expire one TTL later. *)
Theorem POST_expired_entry_is_recomputed (env : Env) (req : Request) (url : string)
    (m : gmap string Entry) (e : Entry) (rows : list CsvRecord) :
  Valid cfg req url → redis_down env = None →
  m !! key_of req url = Some e → entry_expires e ≤ now env →
  total_available cfg env m url →
  remote_rows env url = Ok rows →
  EvGet (totalKey url) ∈ trace (run cfg env req m).2 ∧
  EvFetchStream url (STREAM_TIMEOUT_MS cfg) ∈ trace (run cfg env req m).2 ∧
  ∀ resp st, run cfg env req m = (Return resp, st) → status resp = 200 →
             store st !! key_of req url
             = Some (mkEntry (body resp) (now env + CACHE_EXPIRY_SECONDS cfg)).
Proof.
  intros Hv Hup He Hexp Htotal Hrows.
  assert (live m (now env) (key_of req url) = None) as Hmiss.
  { unfold live. rewrite He. by assert ((now env <? entry_expires e) = false) as -> by lia. }
  split; [|split].
  - destruct (run_parsed cfg env req url m rows Hv Hup Hmiss Htotal Hrows)
      as (total & m' & tr & Hres & ->).
    assert (EvGet (totalKey url) ∈ tr) as Hin.
    { destruct (resolve_total_inv cfg env url _ _ _ _ _ Hup Hres)
        as [(text & _ & _ & _ & ->)|(c & _ & _ & _ & _ & _ & ->)]; set_solver. }
    match goal with
    | |- context [assemble cfg env ?k ?r ?t ?l (mkState ?a ?b)] =>
        destruct (assemble_frame cfg env k r t l a b) as (o & m2 & evs2 & -> & _)
    end.
    unfold settle. simpl. set_solver.
  - destruct (run_parsed cfg env req url m rows Hv Hup Hmiss Htotal Hrows)
      as (total & m' & tr & _ & ->).
    match goal with
    | |- context [assemble cfg env ?k ?r ?t ?l (mkState ?a ?b)] =>
        destruct (assemble_frame cfg env k r t l a b) as (o & m2 & evs2 & -> & _)
    end.
    unfold settle. simpl. set_solver.
  - intros resp st Hrun H200.
    pose proof (success_entry cfg env req url m resp st Hv Hrun H200) as Hentry.
    by rewrite Hmiss in Hentry.
Qed.

End ErrorPaths.

Section Shape.
Context (cfg : Config).

(** Every path of the handler, one goal a path. *)
Ltac run_paths :=
  unfold run, POST, try_catch_finally, validate_and_serve, serve, compute_page,
    resolve_total, assemble, Parser_new, Redis_new, Redis_disconnect, Redis_get,
    Redis_set, Axios_get, Axios_get_stream, bind, emit, ret, throw,
    internal_error, bad_request, NextResponse_json;
  cbn [store trace app req_url req_filter req_page req_limit];
  repeat (case_match; simplify_eq; cbn [store trace app fst snd]).

Lemma caught_default (msg : string) :
  default "Internal server error" (Js.truthy (Some msg)) = caught_message msg.
Proof. by destruct msg. Qed.

(** X2.  Every response the handler returns has status 200, 400, 404 or 500;
    a response that is not a 200 is built with the default headers and a
    body [{error: msg}] whose message is not empty. *)
Theorem POST_response_shape (env : Env) (req : Request) (m : gmap string Entry)
    (resp : Response) (st : State) :
  run cfg env req m = (Return resp, st) →
  status resp = 200 ∨
  (status resp = 400 ∨ status resp = 404 ∨ status resp = 500) ∧
  headers resp = Some (DEFAULT_RESPONSE_HEADERS cfg) ∧
  ∃ msg, msg ≠ EmptyString ∧ body resp = error_body msg.
Proof.
  run_paths.
  all: intros [= <- <-]; cbn [status headers body default].
  all: try (by left).
  all: right; (split; [first [by left | by right; left | by right; right]|]);
         (split; [reflexivity|]).
  all: try (by eexists; split; [|reflexivity]).
  all: try match goal with
           | |- context [match ?e with EmptyString => _ | String _ _ => _ end] =>
               exists (caught_message e); split;
               [apply caught_message_nonempty | by destruct e]
           end.
  all: eexists (caught_message _); split; [apply caught_message_nonempty|].
  all: first [by rewrite caught_default | reflexivity].
Qed.

(** X12.  A request performs at most two remote fetches, both of the url of
    the request: at most one whole-body fetch and at most one streamed
    fetch, the whole-body one first. *)
Theorem POST_fetches_at_most_twice (env : Env) (req : Request) (m : gmap string Entry) :
  let fetches := List.filter is_remote_fetch (trace (run cfg env req m).2) in
  let whole := EvFetchAll (url_of req) in
  let stream := EvFetchStream (url_of req) (STREAM_TIMEOUT_MS cfg) in
  fetches = [] ∨ fetches = [whole] ∨ fetches = [stream] ∨ fetches = [whole; stream].
Proof.
  destruct req as [u f p l]. unfold url_of. cbn [req_url]. cbv zeta.
  run_paths.
  all: cbn [List.filter is_remote_fetch].
  all: try (by left).
  all: match goal with H : Js.truthy _ = Some _ |- _ => apply truthy_Some in H as [-> _] end.
  all: cbn [default].
  all: first [by right; left | by right; right; left | by right; right; right].
Qed.

(** X13.  A request writes to the store under its own two keys at most: any
    key that is neither the page-result key nor the total key of the request
    holds after the request what it held before. *)
Theorem POST_writes_own_keys_only (env : Env) (req : Request) (m : gmap string Entry)
    (k : string) :
  k ≠ responseKey (url_of req) (page_of req) (limit_of req) (req_filter req) →
  k ≠ totalKey (url_of req) →
  store (run cfg env req m).2 !! k = m !! k.
Proof.
  destruct req as [u f p l]. unfold url_of, page_of, limit_of.
  cbn [req_url req_page req_limit req_filter].
  intros Hk1 Hk2. run_paths.
  all: try done.
  all: match goal with H : Js.truthy _ = Some _ |- _ => apply truthy_Some in H as [-> _] end.
  all: cbn [default] in *.
  all: by rewrite ?lookup_insert_ne by done.
Qed.

(** X6.  Only a 200 is cached as a page result: when the response is not a
    200, the page-result key of the request holds after the request what it
    held before. *)
Theorem POST_failure_keeps_page_entry (env : Env) (req : Request) (m : gmap string Entry)
    (resp : Response) (st : State) :
  run cfg env req m = (Return resp, st) → status resp ≠ 200 →
  store st !! responseKey (url_of req) (page_of req) (limit_of req) (req_filter req)
  = m !! responseKey (url_of req) (page_of req) (limit_of req) (req_filter req).
Proof.
  destruct req as [u f p l]. unfold url_of, page_of, limit_of.
  cbn [req_url req_page req_limit req_filter].
  run_paths.
  all: intros [= <- <-]; cbn [status default store]; intros H200.
  all: try done.
  all: match goal with H : Js.truthy _ = Some _ |- _ => apply truthy_Some in H as [-> _] end.
  all: cbn [default] in *.
  all: by rewrite lookup_insert_ne by (apply not_eq_sym, responseKey_ne_totalKey).
Qed.

End Shape.

Section Windows.
Context (cfg : Config).

Lemma window_of_selected (req : Request) (url : string) (rows : list CsvRecord) :
  Valid cfg req url → window_of req rows = selected_rows req rows.
Proof.
  intros [_ _ _ Hl _ Hp]. unfold window_of, selected_rows, rows_between, to_of, from_of.
  destruct (Z.eqb_spec (page_of req) 1) as [Heq|Hne].
  - rewrite Heq. replace (Z.to_nat (((1 - 1) * limit_of req) `max` 1 - 1)) with 0%nat by lia.
    rewrite drop_0. f_equal. lia.
  - assert (1 ≤ (page_of req - 1) * limit_of req) by nia.
    rewrite Z.max_l by done. do 2 f_equal. lia.
Qed.

Lemma omap_on_record_unfiltered (env : Env) (filter : option string)
    (l : list CsvRecord) :
  Js.truthy filter = None → omap (on_record env filter) l = l.
Proof.
  intros Hf. induction l as [|x l IH]; [done|].
  rewrite omap_cons, IH. unfold on_record. by rewrite Hf.
Qed.

Lemma selected_rows_length (req : Request) (rows : list CsvRecord) :
  0 < limit_of req →
  Z.of_nat (length (selected_rows req rows))
  ≤ if page_of req =? 1 then limit_of req else limit_of req + 1.
Proof.
  intros Hl. unfold selected_rows. destruct (page_of req =? 1); rewrite length_take; lia.
Qed.

(** X8.  Without filter (absent or empty), the 200 computed on a cache miss
    for a valid request holds, in file order, the first [limit] rows of the
    file on page 1 and, from page 2 on, [limit + 1] rows starting with row
    number [(page - 1) * limit], the last row of the page before (fewer when
    the file ends sooner). *)
Theorem POST_unfiltered_page_rows (env : Env) (req : Request) (url : string)
    (m : gmap string Entry) (rows : list CsvRecord) (resp : Response) (st : State) :
  Valid cfg req url →
  Js.truthy (req_filter req) = None →
  live m (now env) (key_of req url) = None →
  remote_rows env url = Ok rows →
  run cfg env req m = (Return resp, st) → status resp = 200 →
  ∃ pc,
    body resp
    = JObj [("results",
             JArr (map JObj
                     (if page_of req =? 1 then take (Z.to_nat (limit_of req)) rows
                      else take (Z.to_nat (limit_of req + 1))
                             (drop (Z.to_nat ((page_of req - 1) * limit_of req - 1)) rows))));
            ("pageCount", pc)].
Proof.
  intros Hv Hf Hpage Hrows Hrun H200.
  destruct (fresh_success_inv cfg env req url m resp st Hv Hpage Hrun H200)
    as (total & m' & tr & rows' & first & rest & _ & _ & _ & Hrows' & _ & _ & -> & _).
  assert (rows' = rows) as -> by congruence.
  unfold records_of. rewrite omap_on_record_unfiltered by done.
  rewrite (window_of_selected _ url) by done. by eexists.
Qed.

(** X9.  The 200 computed on a cache miss for a valid request holds at least
    one record, at most [limit] records on page 1 and at most [limit + 1]
    records on the pages after. *)
Theorem POST_result_size (env : Env) (req : Request) (url : string)
    (m : gmap string Entry) (resp : Response) (st : State) :
  Valid cfg req url →
  live m (now env) (key_of req url) = None →
  run cfg env req m = (Return resp, st) → status resp = 200 →
  ∃ results pc,
    body resp = JObj [("results", JArr (map JObj results)); ("pageCount", pc)] ∧
    1 ≤ Z.of_nat (length results)
      ≤ if page_of req =? 1 then limit_of req else limit_of req + 1.
Proof.
  intros Hv Hpage Hrun H200.
  destruct (fresh_success_inv cfg env req url m resp st Hv Hpage Hrun H200)
    as (total & m' & tr & rows & first & rest & _ & _ & _ & _ & Hrecs & _ & -> & _).
  eexists (records_of env req rows), _. split; [done|]. split.
  - rewrite Hrecs. simpl. lia.
  - pose proof (sublist_length _ _ (records_sublist env req rows)) as Hlen.
    rewrite (window_of_selected _ url) in Hlen by done.
    pose proof (selected_rows_length req rows ltac:(by destruct Hv)) as Hsel.
    apply Nat2Z.inj_le in Hlen.
    revert Hsel. destruct (page_of req =? 1); intros Hsel; (etrans; [exact Hlen | exact Hsel]).
Qed.

(** X14.  With the cache reachable, a positive TTL, the total to be had, the
    stream parsed, at least one record out of the parser and every mandatory
    header among the keys of the first record, a valid request that misses
    the page-result cache is answered 200 with those records and a
    pageCount, and the same body is stored under the page-result key of the
    request, to expire one TTL later. *)
Theorem POST_computes_and_caches_page (env : Env) (req : Request) (url : string)
    (m : gmap string Entry) (rows : list CsvRecord) (first : CsvRecord)
    (rest : list CsvRecord) :
  Valid cfg req url → redis_down env = None → 0 < CACHE_EXPIRY_SECONDS cfg →
  live m (now env) (key_of req url) = None →
  total_available cfg env m url →
  remote_rows env url = Ok rows →
  records_of env req rows = first :: rest →
  headers_present cfg first →
  ∃ pc st,
    let payload := JObj [("results", JArr (map JObj (first :: rest))); ("pageCount", pc)] in
    run cfg env req m
    = (Return {| body := payload; status := 200; headers := None |}, st) ∧
    store st !! key_of req url
    = Some (mkEntry payload (now env + CACHE_EXPIRY_SECONDS cfg)).
Proof.
  intros Hv Hup Httl Hpage Htotal Hrows Hrecs Hhdr.
  destruct (run_parsed cfg env req url m rows Hv Hup Hpage Htotal Hrows)
    as (total & m' & tr & _ & ->).
  rewrite Hrecs. rewrite assemble_success; [|by apply isMandatoryHeadersPresent_spec|done..].
  unfold settle. simpl. eexists _, _. split; [reflexivity|].
  simpl. by rewrite lookup_insert_eq.
Qed.

End Windows.

Section Validation.
Context (cfg : Config).

Lemma valid_or_violates (req : Request) :
  (∃ url, Valid cfg req url) ∨ (∃ r, violates cfg req r).
Proof.
  destruct (req_url req) as [[|c u]|] eqn:Hu.
  { right. exists UrlPresent. simpl. by right. }
  2:{ right. exists UrlPresent. simpl. by left. }
  destruct (Js.endsWith (String c u) ".csv") eqn:He.
  2:{ right. exists UrlSuffix. simpl. exists (String c u). split; [done|].
      intros Hs. apply endsWith_spec in Hs. congruence. }
  destruct (decide (limit_of req ≤ 0)) as [Hl|Hl].
  { right. exists LimitRange. simpl. by left. }
  destruct (last (DEFAULT_PAGE_SIZES cfg)) as [largest|] eqn:Hlast.
  - destruct (decide (largest < limit_of req)) as [Hm|Hm].
    { right. exists LimitRange. simpl. right. by exists largest. }
    destruct (decide (page_of req < 1)) as [Hp|Hp].
    { right. by exists PageRange. }
    left. exists (String c u). split; [done | done | by apply endsWith_spec | lia | | lia].
    intros l0 Hl0. rewrite Hlast in Hl0. injection Hl0 as <-. lia.
  - destruct (decide (page_of req < 1)) as [Hp|Hp].
    { right. by exists PageRange. }
    left. exists (String c u). split; [done | done | by apply endsWith_spec | lia | | lia].
    intros l0 Hl0. rewrite Hlast in Hl0. discriminate Hl0.
Qed.

Lemma valid_reaches_lookup (env : Env) (req : Request) (url : string)
    (m : gmap string Entry) :
  Valid cfg req url →
  ∃ rest, trace (run cfg env req m).2 = EvConnect :: EvGet (key_of req url) :: rest.
Proof.
  intros Hv. rewrite run_unfold, (validate_valid _ _ _ url) by done.
  destruct (redis_down env) as [msg|] eqn:Hup.
  { rewrite (serve_down _ _ _ _ _ _ _ _ msg) by done. by eexists. }
  destruct (live m (now env) (key_of req url)) as [cached|] eqn:Hlive.
  { rewrite (serve_hit _ _ _ _ _ _ _ _ cached) by done. by eexists. }
  rewrite serve_miss by done.
  match goal with
  | |- context [compute_page cfg env ?u ?f ?p ?l (mkState ?a ?b)] =>
      destruct (compute_page_frame cfg env u f p l a b) as (o & m' & evs & -> & _)
  end.
  by eexists.
Qed.

(** X10.  The handler returns without any cache command or fetch exactly
    when the request violates a validation rule: its effects are the opening
    and the closing of the connection alone if and only if some rule is
    violated; a request that violates none goes on to look up its
    page-result key. *)
Theorem POST_short_circuits_iff_invalid (env : Env) (req : Request)
    (m : gmap string Entry) :
  (∃ r, violates cfg req r) ↔ trace (run cfg env req m).2 = [EvConnect; EvDisconnect].
Proof.
  split.
  - intros Hex. destruct (first_violation_exists cfg req Hex) as (r0 & Hv0 & Hfirst).
    rewrite run_unfold. by rewrite (validate_first_violation cfg env req r0).
  - intros Htr. destruct (valid_or_violates req) as [[url Hv]|Hex]; [|done].
    destruct (valid_reaches_lookup env req url m Hv) as [rest Hrest].
    rewrite Hrest in Htr. discriminate Htr.
Qed.

End Validation.

Section LineCount.

Lemma newlines_app (a b : string) : newlines (a +:+ b) = (newlines a + newlines b)%nat.
Proof.
  induction a as [|c a IH]; [done|]. rewrite app_cons. simpl. rewrite IH. lia.
Qed.

(** X11.  The total counted from a body, the number of pieces of the body
    split at line feeds minus 1, is never negative and adds up over
    concatenation; hence a body that ends with a line feed counts one more
    than the same body without it. *)
Theorem total_lines_add_up (a b : string) :
  let total s := Z.of_nat (length (Js.split Js.LF s)) - 1 in
  0 ≤ total a ∧
  total (a +:+ b) = total a + total b ∧
  total (a +:+ String Js.LF EmptyString) = total a + 1.
Proof.
  intros total. unfold total. rewrite !split_length, newlines_app.
  assert (newlines (a +:+ String Js.LF EmptyString) = S (newlines a)) as ->.
  { rewrite newlines_app. simpl. lia. }
  lia.
Qed.

End LineCount.

(** ** The further properties at work on the fixture *)

Section FurtherOnTheFixture.

Lemma responseKey_separates_page_limit_filter_witness :
  1 = 1 ∧ 10 = 10 ∧ Js.interpolate None = Js.interpolate (Some "undefined").
Proof.
  apply (responseKey_separates_page_limit_filter fixture_url 1 10 1 10 None
           (Some "undefined")); try lia.
  reflexivity.
Defined.

Lemma POST_cache_unreachable_witness :
  run fixture_cfg fixture_env_redis_down (fixture_request 1 10 None) ∅
  = (Return {| body := error_body (caught_message "Connection is closed."); status := 500;
               headers := Some (DEFAULT_RESPONSE_HEADERS fixture_cfg) |},
     mkState ∅ [EvConnect; EvGet (key_of (fixture_request 1 10 None) fixture_url);
                EvDisconnect]).
Proof.
  apply (POST_cache_unreachable fixture_cfg fixture_env_redis_down
           (fixture_request 1 10 None) fixture_url "Connection is closed." ∅).
  - apply fixture_valid; lia.
  - reflexivity.
Defined.

Lemma POST_body_fetch_fails_witness :
  run fixture_cfg fixture_env_body_fails (fixture_request 1 10 None) ∅
  = (Return {| body := error_body (caught_message "Network Error"); status := 500;
               headers := Some (DEFAULT_RESPONSE_HEADERS fixture_cfg) |},
     mkState ∅ [EvConnect; EvGet (key_of (fixture_request 1 10 None) fixture_url);
                EvGet (totalKey fixture_url); EvFetchAll fixture_url; EvDisconnect]).
Proof.
  apply (POST_body_fetch_fails fixture_cfg fixture_env_body_fails
           (fixture_request 1 10 None) fixture_url "Network Error" ∅).
  - apply fixture_valid; lia.
  - reflexivity.
  - vm_compute. reflexivity.
  - vm_compute. reflexivity.
  - reflexivity.
Defined.

Lemma POST_stream_fetch_fails_witness :
  status (response_of
            (run fixture_cfg fixture_env_stream_fails (fixture_request 1 10 None) ∅).1)
  = 500.
Proof.
  rewrite (POST_stream_fetch_fails fixture_cfg fixture_env_stream_fails
             (fixture_request 1 10 None) fixture_url fixture_body
             "timeout of 5000ms exceeded" ∅).
  - reflexivity.
  - apply fixture_valid; lia.
  - reflexivity.
  - simpl. lia.
  - vm_compute. reflexivity.
  - vm_compute. reflexivity.
  - vm_compute. reflexivity.
  - reflexivity.
Defined.

Lemma POST_failure_keeps_page_entry_witness :
  store (run fixture_cfg (fixture_env 0) (fixture_request 4 10 None) ∅).2
    !! responseKey (url_of (fixture_request 4 10 None)) (page_of (fixture_request 4 10 None))
         (limit_of (fixture_request 4 10 None)) (req_filter (fixture_request 4 10 None))
  = (∅ : gmap string Entry)
      !! responseKey (url_of (fixture_request 4 10 None))
           (page_of (fixture_request 4 10 None))
           (limit_of (fixture_request 4 10 None)) (req_filter (fixture_request 4 10 None)).
Proof.
  apply (POST_failure_keeps_page_entry fixture_cfg (fixture_env 0)
           (fixture_request 4 10 None) ∅
           (response_of (run fixture_cfg (fixture_env 0) (fixture_request 4 10 None) ∅).1)).
  - vm_compute. reflexivity.
  - vm_compute. discriminate.
Defined.

Lemma POST_expired_entry_is_recomputed_witness :
  EvFetchStream fixture_url (STREAM_TIMEOUT_MS fixture_cfg)
  ∈ trace (run fixture_cfg (fixture_env 60) (fixture_request 1 10 None)
             fixture_page_expired).2.
Proof.
  refine (proj1 (proj2
    (POST_expired_entry_is_recomputed fixture_cfg (fixture_env 60)
       (fixture_request 1 10 None) fixture_url fixture_page_expired
       (mkEntry (page_result [] (Js.Int 0)) 50) fixture_rows _ _ _ _ _ _))).
  - apply fixture_valid; lia.
  - reflexivity.
  - vm_compute. reflexivity.
  - simpl. lia.
  - right. split; [by exists fixture_body | simpl; lia].
  - vm_compute. reflexivity.
Defined.

Lemma POST_unfiltered_page_rows_witness :
  ∃ pc,
    body (response_of (run fixture_cfg (fixture_env 0) (fixture_request 2 10 None) ∅).1)
    = JObj [("results",
             JArr (map JObj
                     (if page_of (fixture_request 2 10 None) =? 1
                      then take (Z.to_nat (limit_of (fixture_request 2 10 None))) fixture_rows
                      else take (Z.to_nat (limit_of (fixture_request 2 10 None) + 1))
                             (drop (Z.to_nat ((page_of (fixture_request 2 10 None) - 1)
                                              * limit_of (fixture_request 2 10 None) - 1))
                                fixture_rows))));
            ("pageCount", pc)].
Proof.
  apply (POST_unfiltered_page_rows fixture_cfg (fixture_env 0) (fixture_request 2 10 None)
           fixture_url ∅ fixture_rows _
           (run fixture_cfg (fixture_env 0) (fixture_request 2 10 None) ∅).2).
  - apply fixture_valid; lia.
  - reflexivity.
  - vm_compute. reflexivity.
  - vm_compute. reflexivity.
  - vm_compute. reflexivity.
  - vm_compute. reflexivity.
Defined.

Lemma POST_result_size_witness :
  ∃ results pc,
    body (response_of (run fixture_cfg (fixture_env 0) (fixture_request 2 10 None) ∅).1)
    = JObj [("results", JArr (map JObj results)); ("pageCount", pc)] ∧
    1 ≤ Z.of_nat (length results)
      ≤ if page_of (fixture_request 2 10 None) =? 1
        then limit_of (fixture_request 2 10 None)
        else limit_of (fixture_request 2 10 None) + 1.
Proof.
  apply (POST_result_size fixture_cfg (fixture_env 0) (fixture_request 2 10 None)
           fixture_url ∅ _
           (run fixture_cfg (fixture_env 0) (fixture_request 2 10 None) ∅).2).
  - apply fixture_valid; lia.
  - vm_compute. reflexivity.
  - vm_compute. reflexivity.
  - vm_compute. reflexivity.
Defined.

Lemma POST_short_circuits_iff_invalid_witness :
  trace (run fixture_cfg (fixture_env 0) (fixture_request 1 0 None) ∅).2
  = [EvConnect; EvDisconnect].
Proof.
  apply (proj1 (POST_short_circuits_iff_invalid fixture_cfg (fixture_env 0)
                  (fixture_request 1 0 None) ∅)).
  exists LimitRange. left. unfold limit_of. simpl. lia.
Defined.

Lemma POST_writes_own_keys_only_witness :
  store (run fixture_cfg (fixture_env 0) (fixture_request 1 10 None) fixture_page_expired).2
    !! "http://files.test/other.csv-total"
  = fixture_page_expired !! "http://files.test/other.csv-total".
Proof.
  apply (POST_writes_own_keys_only fixture_cfg (fixture_env 0) (fixture_request 1 10 None)
           fixture_page_expired "http://files.test/other.csv-total").
  - vm_compute. discriminate.
  - vm_compute. discriminate.
Defined.

Lemma POST_computes_and_caches_page_witness :
  ∃ pc st,
    let payload :=
      JObj [("results", JArr (map JObj (fixture_row 1 :: map fixture_row [2; 3])));
            ("pageCount", pc)] in
    run fixture_cfg (fixture_env 0) (fixture_request 1 3 None) ∅
    = (Return {| body := payload; status := 200; headers := None |}, st) ∧
    store st !! key_of (fixture_request 1 3 None) fixture_url
    = Some (mkEntry payload (0 + CACHE_EXPIRY_SECONDS fixture_cfg)).
Proof.
  apply (POST_computes_and_caches_page fixture_cfg (fixture_env 0) (fixture_request 1 3 None)
           fixture_url ∅ fixture_rows (fixture_row 1) (map fixture_row [2; 3])).
  - apply fixture_valid; lia.
  - reflexivity.
  - simpl. lia.
  - vm_compute. reflexivity.
  - right. split; [by exists fixture_body | simpl; lia].
  - vm_compute. reflexivity.
  - vm_compute. reflexivity.
  - apply isMandatoryHeadersPresent_spec. vm_compute. reflexivity.
Defined.

Lemma POST_response_shape_witness :
  status (response_of (run fixture_cfg (fixture_env 0) (fixture_request 4 10 None) ∅).1) = 200 ∨
  (status (response_of (run fixture_cfg (fixture_env 0) (fixture_request 4 10 None) ∅).1) = 400 ∨
   status (response_of (run fixture_cfg (fixture_env 0) (fixture_request 4 10 None) ∅).1) = 404 ∨
   status (response_of (run fixture_cfg (fixture_env 0) (fixture_request 4 10 None) ∅).1) = 500) ∧
  headers (response_of (run fixture_cfg (fixture_env 0) (fixture_request 4 10 None) ∅).1)
  = Some (DEFAULT_RESPONSE_HEADERS fixture_cfg) ∧
  ∃ msg, msg ≠ EmptyString ∧
         body (response_of (run fixture_cfg (fixture_env 0) (fixture_request 4 10 None) ∅).1)
         = error_body msg.
Proof.
  apply (POST_response_shape fixture_cfg (fixture_env 0) (fixture_request 4 10 None) ∅ _
           (run fixture_cfg (fixture_env 0) (fixture_request 4 10 None) ∅).2).
  vm_compute. reflexivity.
Defined.

End FurtherOnTheFixture.
